(** * mailtrap-go: the transport core and the sending clients

    A shallow embedding of the Go package [mailtrap] (the client, its
    [NewRequest], [Do], [decode] and [checkResponse], the two sending
    clients and the validation of [SendEmailRequest]), and the properties
    of it that the specification states.

    Conventions of the embedding.
    - A Go [string] is a sequence of bytes: Rocq's [string], whose
      [String.length] is Go's [len].
    - A Go slice is [None] when nil and [Some l] otherwise; a Go map
      likewise, over a [gmap].
    - A pointer to a request or a response that the code only reads is an
      [option] of the value ([None] is nil).  The one pointer the code
      writes through, [client.baseURL], is a location of a store.
    - A Go [error] result is an [option error] ([None] is nil). *)

From Stdlib Require Import ZArith List String Ascii Bool Lia.
From stdpp Require Import base option list strings gmap pretty sorting.

Open Scope string_scope.

(** ** Go values *)

(** A slice: nil, or a (possibly empty) sequence of elements. *)
Definition slice (A : Type) : Type := option (list A).

(** The elements a [range] loop visits. *)
Definition elems {A} (s : slice A) : list A := default [] s.

(** [len(s)]. *)
Definition len {A} (s : slice A) : nat := length (elems s).

(** [strings.Join(elems, sep)]. *)
Fixpoint strings_Join (l : list string) (sep : string) : string :=
  match l with
  | [] => EmptyString
  | [s] => s
  | s :: rest => s +:+ sep +:+ strings_Join rest sep
  end.

(** The verbs [%d] and [%v] of [fmt] at an integer: its decimal digits,
    with a minus sign when negative. *)
Definition fmt_int (n : Z) : string := pretty n.

(** ** The request and response types of the sending clients *)

Record EmailAddress := {
  Email : string;
  Name : string
}.

Record EmailAttachment := {
  Content : string;
  AttachType : string;
  Filename : string;
  Disposition : string;
  ContentID : string
}.

(** The field [From] of the source is [From_] here ([From] is a keyword
    of Rocq). *)
Record SendEmailRequest := {
  From_ : EmailAddress;
  To : slice EmailAddress;
  Cc : slice EmailAddress;
  Bcc : slice EmailAddress;
  Attachments : slice EmailAttachment;
  Headers : option (gmap string string);
  CustomVars : option (gmap string string);
  Subject : string;
  Text : string;
  HTML : string;
  Category : string
}.

Record SendEmailResponse := {
  Success : bool;
  MessageIDs : slice string
}.

(** The zero values: what [&SendEmailRequest{}] and
    [new(SendEmailResponse)] point to. *)
Definition zero_EmailAddress : EmailAddress :=
  {| Email := EmptyString; Name := EmptyString |}.

Definition zero_SendEmailRequest : SendEmailRequest :=
  {| From_ := zero_EmailAddress; To := None; Cc := None; Bcc := None;
     Attachments := None; Headers := None; CustomVars := None;
     Subject := EmptyString; Text := EmptyString; HTML := EmptyString;
     Category := EmptyString |}.

Definition zero_SendEmailResponse : SendEmailResponse :=
  {| Success := false; MessageIDs := None |}.

(** ** net/url and net/http, as far as the package uses them *)

(** The components of a [url.URL] that the package reads or writes. *)
Record URL := {
  Scheme : string;
  Host : string;
  Path : string
}.

(** [http.Header]: a map from (canonical) header names to their values.
    Every name the package sets is already in canonical form. *)
Abbreviation Header := (gmap string (list string)).

(** [h.Set(key, value)]: the header has this value and no other. *)
Definition Header_Set (key value : string) (h : Header) : Header :=
  <[key := [value]]> h.

(** [h.Get(key)]: the first value of the header, the empty string when it
    has none. *)
Definition Header_Get (key : string) (h : Header) : string :=
  match h !! key with
  | Some (v :: _) => v
  | _ => EmptyString
  end.

Module http.

Definition MethodGet : string := "GET".
Definition MethodHead : string := "HEAD".
Definition MethodPost : string := "POST".
Definition MethodOptions : string := "OPTIONS".

(** The body of an outgoing request: none at all (a nil [io.Reader] was
    given), [http.NoBody] (a buffer of length zero was given), or the
    bytes of the buffer. *)
Inductive RequestBody :=
| NilBody
| NoBody
| BufferBody (data : string).

Record Request := {
  Method : string;
  ReqURL : URL;
  ReqHeader : Header;
  ReqBody : RequestBody
}.

(** The body of a response, an [io.ReadCloser]: reading it to its end
    gives [data], and then the end of the stream or a failure. *)
Record Reader := {
  data : string;
  failure : option string
}.

(** A response as a client returns it: its [Body] is never nil. *)
Record Response := {
  StatusCode : Z;
  RespHeader : Header;
  Body : Reader
}.

(** [http.Client]; [Timeout] is in nanoseconds. *)
Record Client := {
  Timeout : Z
}.

(** A byte that may stand in a method name (a token of RFC 7230). *)
Definition isTokenByte (c : ascii) : bool :=
  let n := nat_of_ascii c in
  ((48 <=? n)%nat && (n <=? 57)%nat) || ((65 <=? n)%nat && (n <=? 90)%nat)
  || ((97 <=? n)%nat && (n <=? 122)%nat)
  || bool_decide (c ∈ list_ascii_of_string "!#$%&'*+-.^_`|~").

(** [validMethod]. *)
Definition validMethod (method : string) : bool :=
  (0 <? String.length method)%nat
  && forallb isTokenByte (list_ascii_of_string method).

End http.

(** [time.Second], in nanoseconds. *)
Definition time_Second : Z := 1000000000.

(** ** Errors *)

(** [Response] of the package wraps the [http.Response]. *)
Record Response := {
  Response_http : http.Response
}.

(** Modelled from the spec: the declaration of [ErrorResponse] is not in
    the sources at hand; [checkResponse] builds one from the response and
    assigns its [Message].  The structured error wraps the raw HTTP
    response and has a message.  Its fields are [Response] and [Message]
    in the source. *)
Record ErrorResponse := {
  ErrorResponse_Response : http.Response;
  ErrorResponse_Message : string
}.

(** The values of Go's [error] that the package returns:
    - [errors_New s]: made by [errors.New] or [fmt.Errorf], with text [s];
    - [providerError e]: an [*ErrorResponse];
    - [libraryError s]: an error the package passes on from a library
      (net/url, net/http, encoding/json, io); [s] describes it, the text
      is the library's. *)
Inductive error :=
| errors_New (text : string)
| providerError (e : ErrorResponse)
| libraryError (description : string).

(** [io.ReadAll]: the bytes read, and the failure that stopped the
    reading if there was one. *)
Definition io_ReadAll (r : http.Reader) : string * option error :=
  (http.data r, libraryError <$> http.failure r).

(** ** encoding/json: the encoder at the types of the sending clients

    [json.Marshal] walks a struct by its field tags.  Every tag of
    these types is a bare name ([json:"from"], [json:"to"], ...): none
    has the option omitempty, so the encoder writes every field, in the
    order of declaration; a nil slice or map is written as null. *)

Module utf8.

Definition RuneError : Z := 65533.
Definition RuneSelf : Z := 128.
Definition UTFMax : nat := 4.

(** A byte as a number. *)
Definition byte (c : ascii) : Z := Z.of_N (N_of_ascii c).

(** The tables [first] and [acceptRanges]: for a byte that starts a
    sequence of several bytes, the length of the sequence and the range
    of its second byte; nothing for the other bytes. *)
Definition first (s0 : Z) : option (nat * Z * Z) :=
  if (0xC2 <=? s0)%Z && (s0 <=? 0xDF)%Z then Some (2%nat, 0x80, 0xBF)%Z
  else if (s0 =? 0xE0)%Z then Some (3%nat, 0xA0, 0xBF)%Z
  else if (0xE1 <=? s0)%Z && (s0 <=? 0xEC)%Z then Some (3%nat, 0x80, 0xBF)%Z
  else if (s0 =? 0xED)%Z then Some (3%nat, 0x80, 0x9F)%Z
  else if (0xEE <=? s0)%Z && (s0 <=? 0xEF)%Z then Some (3%nat, 0x80, 0xBF)%Z
  else if (s0 =? 0xF0)%Z then Some (4%nat, 0x90, 0xBF)%Z
  else if (0xF1 <=? s0)%Z && (s0 <=? 0xF3)%Z then Some (4%nat, 0x80, 0xBF)%Z
  else if (s0 =? 0xF4)%Z then Some (4%nat, 0x80, 0x8F)%Z
  else None.

(** A byte outside [lo] to [hi]. *)
Definition outside (lo hi : Z) (c : ascii) : bool :=
  (byte c <? lo)%Z || (hi <? byte c)%Z.

(** The bits of a continuation byte, and of a first byte under a mask. *)
Definition bits (mask : Z) (c : ascii) : Z := Z.land (byte c) mask.

(** [utf8.DecodeRuneInString]: the first rune of the string and the
    number of bytes it takes; [RuneError] with no byte for the empty
    string, and with one byte for what is no UTF-8. *)
Definition DecodeRuneInString (s : string) : Z * nat :=
  match s with
  | EmptyString => (RuneError, 0%nat)
  | String c0 rest =>
      match first (byte c0) with
      | None => (if (byte c0 <? RuneSelf)%Z then byte c0 else RuneError, 1%nat)
      | Some (sz, lo, hi) =>
          if (String.length s <? sz)%nat then (RuneError, 1%nat)
          else
            match rest with
            | EmptyString => (RuneError, 1%nat)
            | String c1 rest1 =>
                if outside lo hi c1 then (RuneError, 1%nat)
                else if (sz <=? 2)%nat
                then (Z.lor (Z.shiftl (bits 0x1F c0) 6) (bits 0x3F c1), 2%nat)
                else
                  match rest1 with
                  | EmptyString => (RuneError, 1%nat)
                  | String c2 rest2 =>
                      if outside 0x80 0xBF c2 then (RuneError, 1%nat)
                      else if (sz <=? 3)%nat
                      then (Z.lor (Z.shiftl (bits 0x0F c0) 12)
                              (Z.lor (Z.shiftl (bits 0x3F c1) 6) (bits 0x3F c2)),
                            3%nat)
                      else
                        match rest2 with
                        | EmptyString => (RuneError, 1%nat)
                        | String c3 _ =>
                            if outside 0x80 0xBF c3 then (RuneError, 1%nat)
                            else (Z.lor (Z.shiftl (bits 0x07 c0) 18)
                                    (Z.lor (Z.shiftl (bits 0x3F c1) 12)
                                       (Z.lor (Z.shiftl (bits 0x3F c2) 6)
                                          (bits 0x3F c3))),
                                  4%nat)
                        end
                  end
            end
      end
  end.

End utf8.

Module json.

(** The double quote, as a string of one byte. *)
Definition dquote : string := String "034"%char EmptyString.

Definition hexdigit (n : nat) : ascii :=
  nth n (list_ascii_of_string "0123456789abcdef") "0"%char.

(** How the encoder writes one byte below 0x80 of a string, with the
    escaping of HTML that [Marshal] and [Encoder] have by default; [\b]
    and [\f] are written as Go 1.22 and later write them. *)
Definition escape (c : ascii) : string :=
  let n := nat_of_ascii c in
  if Ascii.eqb c "\"%char then "\\"
  else if Ascii.eqb c "034"%char then "\" +:+ dquote
  else if Ascii.eqb c "008"%char then "\b"
  else if Ascii.eqb c "012"%char then "\f"
  else if Ascii.eqb c "010"%char then "\n"
  else if Ascii.eqb c "013"%char then "\r"
  else if Ascii.eqb c "009"%char then "\t"
  else if (n <? 32)%nat || Ascii.eqb c "<"%char || Ascii.eqb c ">"%char
          || Ascii.eqb c "&"%char
  then "\u00" +:+ String (hexdigit (n / 16)) (String (hexdigit (n mod 16)) EmptyString)
  else String c EmptyString.

(** How the encoder writes the bytes of a string: a byte below 0x80 by
    [escape]; from a byte of 0x80 or above it decodes one rune of the
    next four bytes at most, writes the replacement character as an
    escape for a byte that starts no UTF-8 sequence and goes on after
    that byte, writes U+2028 and U+2029 as escapes, and copies the bytes
    of every other rune. *)
Fixpoint escape_string (s : string) : string :=
  match s with
  | EmptyString => EmptyString
  | String c0 rest =>
      if (utf8.byte c0 <? utf8.RuneSelf)%Z then escape c0 +:+ escape_string rest
      else
        let '(c, size) := utf8.DecodeRuneInString (substring 0 utf8.UTFMax s) in
        let separator := (c =? 0x2028)%Z || (c =? 0x2029)%Z in
        let escaped :=
          "\u202" +:+ String (hexdigit (Z.to_nat (Z.land c 0xF))) EmptyString in
        match size, rest with
        | 2%nat, String c1 rest1 => String c0 (String c1 (escape_string rest1))
        | 3%nat, String c1 (String c2 rest2) =>
            if separator then escaped +:+ escape_string rest2
            else String c0 (String c1 (String c2 (escape_string rest2)))
        | 4%nat, String c1 (String c2 (String c3 rest3)) =>
            String c0 (String c1 (String c2 (String c3 (escape_string rest3))))
        | _, _ => "\ufffd" +:+ escape_string rest
        end
  end.

(** A Go string as a JSON string. *)
Definition quote (s : string) : string :=
  dquote +:+ escape_string s +:+ dquote.

(** A JSON object from its members, each a name and an encoded value. *)
Definition object (members : list (string * string)) : string :=
  "{" +:+ strings_Join (map (λ m, quote m.1 +:+ ":" +:+ m.2) members) ","
  +:+ "}".

(** A JSON array from its encoded items. *)
Definition array (items : list string) : string :=
  "[" +:+ strings_Join items "," +:+ "]".

(** A slice: null when nil, an array otherwise. *)
Definition of_slice {A} (enc : A → string) (s : slice A) : string :=
  match s with
  | None => "null"
  | Some l => array (enc <$> l)
  end.

(** The order of map keys in the output: sorted as byte strings. *)
Definition key_le (p q : string * string) : Prop := String.leb p.1 q.1.

(** A [map[string]string]: null when nil, else an object with the keys
    sorted. *)
Definition of_map (m : option (gmap string string)) : string :=
  match m with
  | None => "null"
  | Some m =>
      object ((λ kv, (kv.1, quote kv.2)) <$> merge_sort key_le (map_to_list m))
  end.

Definition of_EmailAddress (a : EmailAddress) : string :=
  object [("email", quote (Email a)); ("name", quote (Name a))].

Definition of_EmailAttachment (a : EmailAttachment) : string :=
  object [("content", quote (Content a)); ("type", quote (AttachType a));
          ("filename", quote (Filename a));
          ("disposition", quote (Disposition a));
          ("content_id", quote (ContentID a))].

Definition of_SendEmailRequest (r : SendEmailRequest) : string :=
  object [("from", of_EmailAddress (From_ r));
          ("to", of_slice of_EmailAddress (To r));
          ("cc", of_slice of_EmailAddress (Cc r));
          ("bcc", of_slice of_EmailAddress (Bcc r));
          ("attachments", of_slice of_EmailAttachment (Attachments r));
          ("headers", of_map (Headers r));
          ("custom_variables", of_map (CustomVars r));
          ("subject", quote (Subject r));
          ("text", quote (Text r));
          ("html", quote (HTML r));
          ("category", quote (Category r))].

(** What [json.Marshal] can be applied to: a type with its encoding, which
    may fail (a value the encoder does not support). *)
Class Marshaler (B : Type) := Marshal : B → string + error.

(** [json.NewEncoder(buf).Encode(v)]: what it writes to the buffer, the
    encoding followed by a newline, or its error. *)
Definition Encode {B} {MB : Marshaler B} (v : B) : string + error :=
  match Marshal v with
  | inl js => inl (js +:+ String "010"%char EmptyString)
  | inr err => inr err
  end.

(** What [json.Unmarshal] and [Decoder.Decode] can fill: a type with its
    decoder.  Both take the value the destination holds and give the value
    it holds afterwards and the error, if any: [Unmarshal] from the bytes,
    [Decode] (that is [json.NewDecoder(body).Decode(v)]) from a reader. *)
Class Unmarshaler (T : Type) := {
  Unmarshal : string → T → T * option error;
  Decode : http.Reader → T → T * option error
}.

End json.

#[global] Instance Marshaler_SendEmailRequest : json.Marshaler SendEmailRequest :=
  λ r, inl (json.of_SendEmailRequest r).

(** ** Validation of a request *)

(** A check that returns its error at once and lets the function go on
    otherwise. *)
Notation "'check' c ';;' k" :=
  (match c with Some err => Some err | None => k end)
  (at level 10, c at level 99, k at level 200, only parsing).

(** [for _, v := range r.To]: returns at the first entry without email. *)
Fixpoint range_To (to : list EmailAddress) : option error :=
  match to with
  | [] => None
  | v :: rest =>
      if String.eqb (Email v) EmptyString
      then Some (errors_New "'email' is required in 'to' address")
      else range_To rest
  end.

(** The body of [for _, v := range r.Attachments], on [errMsg]. *)
Definition range_Attachments_body (errMsg : list string) (v : EmailAttachment)
  : list string :=
  let errMsg :=
    if String.eqb (Content v) EmptyString
    then (errMsg ++ ["'content' is required in attachment"])%list else errMsg in
  let errMsg :=
    if String.eqb (Filename v) EmptyString
    then (errMsg ++ ["'filename' is required in attachment"])%list else errMsg in
  errMsg.

Definition categoryMaxLength : Z := 255.

(** [(r *SendEmailRequest) validate()]. *)
Definition validate (r : SendEmailRequest) : option error :=
  if String.eqb (Email (From_ r)) EmptyString
  then Some (errors_New "'from' address is required") else
  if (len (To r) =? 0)%nat
  then Some (errors_New "'to' address is required") else
  check range_To (elems (To r)) ;;
  check (if (0 <? len (Attachments r))%nat then
           let errMsg := foldl range_Attachments_body [] (elems (Attachments r)) in
           if (0 <? length errMsg)%nat
           then Some (errors_New (strings_Join errMsg "; ")) else None
         else None) ;;
  if String.eqb (Subject r) EmptyString
  then Some (errors_New "'subject' is required") else
  if String.eqb (Text r) EmptyString && String.eqb (HTML r) EmptyString
  then Some (errors_New "one of 'text' or 'html' is required") else
  if (categoryMaxLength <? Z.of_nat (String.length (Category r)))%Z
  then Some (errors_New ("'category' is greater than "
                         +:+ fmt_int categoryMaxLength +:+ " chars"))
  else None.

(** ** The world the client runs in *)

(** What the code takes from its platform and from the network:
    - the operating system, architecture and Go version in the user agent;
    - [url.Parse] and the method [String] of a URL;
    - the method [Do] of [http.Client]: the answer of the other side to
      a request, which may depend on the requests it has seen before. *)
Class Env := {
  GOOS : string;
  GOARCH : string;
  runtime_Version : string;
  url_Parse : string → URL + error;
  url_String : URL → string;
  Client_Do : http.Client → list http.Request → http.Request
              → http.Response + error
}.

(** A location of the store: what a [*url.URL] points to. *)
Definition loc := positive.

(** The state: the URLs that pointers refer to, and the requests that
    went over the network, the latest first. *)
Record World := {
  store : gmap loc URL;
  wire : list http.Request
}.

Inductive Outcome (A : Type) :=
| Returns (a : A) (w : World)
| Panics.
Arguments Returns {A} a w.
Arguments Panics {A}.

(** A Go computation: from a world to a result and a world, or a panic. *)
Definition Go (A : Type) : Type := World → Outcome A.

Definition ret {A} (a : A) : Go A := λ w, Returns a w.

Definition bind {A B} (m : Go A) (k : A → Go B) : Go B :=
  λ w, match m w with
       | Returns a w' => k a w'
       | Panics => Panics
       end.

Definition panic {A} : Go A := λ _, Panics.

Notation "'let*' x := m 'in' k" := (bind m (λ x, k))
  (at level 10, x name, m at level 100, k at level 200, only parsing).
Notation "'let*' ' p := m 'in' k" := (bind m (λ x, let 'p := x in k))
  (at level 10, p strict pattern, m at level 100, k at level 200,
   only parsing).

(** Reading through a pointer: a nil pointer panics. *)
Definition deref (p : option loc) : Go URL :=
  λ w, match p with
       | Some l => match store w !! l with
                   | Some u => Returns u w
                   | None => Panics
                   end
       | None => Panics
       end.

(** A URL with another path. *)
Definition with_Path (u : URL) (path : string) : URL :=
  {| Scheme := Scheme u; Host := Host u; Path := path |}.

(** [p.Path = path]: writes through the pointer. *)
Definition assign_Path (p : option loc) (path : string) : Go unit :=
  λ w, match p with
       | Some l => match store w !! l with
                   | Some u =>
                       Returns tt
                         {| store := <[l := with_Path u path]> (store w);
                            wire := wire w |}
                   | None => Panics
                   end
       | None => Panics
       end.

(** A pointer to a new URL. *)
Definition new_URL (u : URL) : Go loc :=
  λ w, let l := fresh (dom (store w)) in
       Returns l {| store := <[l := u]> (store w); wire := wire w |}.

(** The request goes over the network and the other side answers. *)
Definition roundTrip {E : Env} (hc : http.Client) (req : http.Request)
  : Go (http.Response + error) :=
  λ w, Returns (Client_Do hc (wire w) req)
               {| store := store w; wire := req :: wire w |}.

(** ** The client *)

Definition libVersion : string := "0.1.2".
Definition testingAPIURL : string := "https://mailtrap.io/".
Definition sendingAPIURL : string := "https://send.api.mailtrap.io/".
Definition sandboxAPIURL : string := "https://sandbox.api.mailtrap.io/".
Definition apiSuffix : string := "api".
Definition defaultAccept : string := "application/json".

(** The package variable [userAgent]. *)
Definition userAgent_var {E : Env} : string :=
  "mailtrap-go/" +:+ libVersion +:+ " (" +:+ GOOS +:+ " " +:+ GOARCH
  +:+ ") go/" +:+ runtime_Version.

(** [baseURL] is a [*url.URL] and [httpClient] a [*http.Client]: [None]
    is nil. *)
Record client := {
  apiKey : string;
  baseURL : option loc;
  userAgent : string;
  httpClient : option http.Client
}.

(** [client{}]. *)
Definition zero_client : client :=
  {| apiKey := EmptyString; baseURL := None; userAgent := EmptyString;
     httpClient := None |}.

Record ProductionSendingClient := {
  Production_client : client
}.

Record SandboxSendingClient := {
  Sandbox_client : client;
  inboxID : Z
}.

(** [getClient]. *)
Definition getClient {E : Env} (apiKey baseURL : string)
  : Go (client * option error) :=
  match url_Parse baseURL with
  | inr err => ret (zero_client, Some err)
  | inl parsed =>
      let* u := new_URL parsed in
      let* cur := deref (Some u) in
      let* _ := assign_Path (Some u) (Path cur +:+ apiSuffix) in
      ret ({| apiKey := apiKey;
              baseURL := Some u;
              httpClient := Some {| http.Timeout := 30 * time_Second |};
              userAgent := userAgent_var |}, None)
  end.

(** [NewSendingClient]. *)
Definition NewSendingClient {E : Env} (apiKey : string)
  : Go (option ProductionSendingClient * option error) :=
  let* '(c, err) := getClient apiKey sendingAPIURL in
  match err with
  | Some err => ret (None, Some err)
  | None => ret (Some {| Production_client := c |}, None)
  end.

(** [NewSandboxSendingClient]. *)
Definition NewSandboxSendingClient {E : Env} (apiKey : string) (inboxID : Z)
  : Go (option SandboxSendingClient * option error) :=
  let* '(c, err) := getClient apiKey sandboxAPIURL in
  match err with
  | Some err => ret (None, Some err)
  | None => ret (Some {| Sandbox_client := c; inboxID := inboxID |}, None)
  end.

(** [setBaseURL] of the interface [SendingClient], which takes a
    [*url.URL]: the client points to another URL. *)
Definition setBaseURL (c : client) (u : option loc) : client :=
  {| apiKey := apiKey c; baseURL := u; userAgent := userAgent c;
     httpClient := httpClient c |}.

(** [http.NewRequest(method, url, body)]; [body] is [None] for a nil
    reader and the contents of the buffer otherwise. *)
Definition http_NewRequest {E : Env} (method url : string) (body : option string)
  : http.Request + error :=
  let method := if String.eqb method EmptyString then http.MethodGet else method in
  if negb (http.validMethod method)
  then inr (libraryError "net/http: invalid method")
  else
    match url_Parse url with
    | inr err => inr err
    | inl u =>
        inl {| http.Method := method;
               http.ReqURL := u;
               http.ReqHeader := ∅;
               http.ReqBody :=
                 match body with
                 | None => http.NilBody
                 | Some buf =>
                     if (String.length buf =? 0)%nat then http.NoBody
                     else http.BufferBody buf
                 end |}
    end.

(** The methods for which [NewRequest] gives no body to the request. *)
Definition bodyless (method : string) : bool :=
  String.eqb method http.MethodGet || String.eqb method http.MethodHead
  || String.eqb method http.MethodOptions.

Definition with_Header (req : http.Request) (h : Header) : http.Request :=
  {| http.Method := http.Method req; http.ReqURL := http.ReqURL req;
     http.ReqHeader := h; http.ReqBody := http.ReqBody req |}.

(** The [switch] of [NewRequest] on the method: the request it makes for
    the URL [target], or the error it returns. *)
Definition NewRequest_switch {B} {MB : json.Marshaler B} {E : Env}
    (target : URL) (method : string) (body : option B)
  : http.Request + error :=
  if bodyless method
  then http_NewRequest method (url_String target) None
  else
    match (match body with
           | Some b => json.Encode b
           | None => inl EmptyString
           end) with
    | inr err => inr err
    | inl buf => http_NewRequest method (url_String target) (Some buf)
    end.

(** The headers that [NewRequest] sets, in its order, on the headers [h]
    of the request made. *)
Definition NewRequest_headers {B} (c : client) (body : option B) (h : Header)
  : Header :=
  let h := match body with
           | Some _ => Header_Set "Content-Type" "application/json" h
           | None => h
           end in
  let h := Header_Set "Accept" defaultAccept h in
  let h := Header_Set "User-Agent" (userAgent c) h in
  let h := Header_Set "Authorization" ("Bearer " +:+ apiKey c) h in
  h.

(** [(c *client) NewRequest(method, path, body)].

    [u := c.baseURL] copies the pointer, not the URL: the assignment to
    [u.Path] writes the URL that [c.baseURL] points to. *)
Definition NewRequest {B} {MB : json.Marshaler B} {E : Env}
    (c : client) (method path : string) (body : option B)
  : Go (option http.Request * option error) :=
  let u := baseURL c in
  let* base := deref (baseURL c) in
  let* _ := assign_Path u (Path base +:+ path) in
  let* target := deref u in
  match NewRequest_switch target method body with
  | inr err => ret (None, Some err)
  | inl req =>
      ret (Some (with_Header req (NewRequest_headers c body (http.ReqHeader req))),
           None)
  end.

(** [checkResponse]: nil for a status from 200 to 299; otherwise an
    [*ErrorResponse] on the response, filled from the body when it can be
    read and is not empty, by the JSON decoder or, when that fails, with
    the body as the message. *)
Definition checkResponse {UE : json.Unmarshaler ErrorResponse} (r : http.Response)
  : option error :=
  let c := http.StatusCode r in
  if (200 <=? c)%Z && (c <=? 299)%Z then None
  else
    let errResponse :=
      {| ErrorResponse_Response := r; ErrorResponse_Message := EmptyString |} in
    let '(data, err) := io_ReadAll (http.Body r) in
    let errResponse :=
      match err with
      | None =>
          if (0 <? String.length data)%nat then
            let '(decoded, err) := json.Unmarshal data errResponse in
            match err with
            | Some _ =>
                {| ErrorResponse_Response := ErrorResponse_Response decoded;
                   ErrorResponse_Message := data |}
            | None => decoded
            end
          else errResponse
      | Some _ => errResponse
      end in
    Some (providerError errResponse).

(** The argument [v interface{}] of [Do] and [decode]: nil, a [*string]
    or a pointer to a value of a type the JSON decoder fills; each with
    the value it points to. *)
Inductive Destination (T : Type) :=
| nilDest
| stringDest (s : string)
| typedDest (v : T).
Arguments nilDest {T}.
Arguments stringDest {T} s.
Arguments typedDest {T} v.

(** [(c *client) decode(v, body, acceptHeader)]: the destination
    afterwards, and the error. *)
Definition decode {T} {UT : json.Unmarshaler T}
    (v : Destination T) (body : option http.Reader) (acceptHeader : string)
  : Destination T * option error :=
  match body with
  | None => (v, None)
  | Some body =>
      match v with
      | stringDest _ =>
          let '(data, err) := io_ReadAll body in
          match err with
          | Some err => (v, Some err)
          | None => (stringDest data, None)
          end
      | typedDest t =>
          if String.eqb acceptHeader defaultAccept then
            let '(t', err) := json.Decode body t in (typedDest t', err)
          else (v, Some (errors_New "decode() undefined response type"))
      | nilDest => (v, Some (errors_New "decode() undefined response type"))
      end
  end.

(** [(c *client) Do(req, v)].  A nil [httpClient] or request panics.  The
    deferred function closes the body and assigns to the local [err]: the
    results of [Do] have no names, so what it assigns is not returned. *)
Definition Do {T} {E : Env} {UE : json.Unmarshaler ErrorResponse} {UT : json.Unmarshaler T}
    (c : client) (req : option http.Request) (v : Destination T)
  : Go (Destination T * option Response * option error) :=
  match httpClient c, req with
  | Some hc, Some req =>
      let* answer := roundTrip hc req in
      match answer with
      | inr err => ret (v, None, Some err)
      | inl resp =>
          let response := {| Response_http := resp |} in
          match checkResponse resp with
          | Some err => ret (v, Some response, Some err)
          | None =>
              match v with
              | nilDest => ret (v, Some response, None)
              | _ =>
                  let '(v', err) :=
                    decode v (Some (http.Body resp))
                           (Header_Get "Accept" (http.ReqHeader req)) in
                  ret (v', Some response, err)
              end
          end
      end
  | _, _ => panic
  end.

(** The value a typed destination points to after [Do]. *)
Definition pointee {T} (zero : T) (v : Destination T) : T :=
  match v with
  | typedDest t => t
  | _ => zero
  end.

(** ** The two sending clients *)

(** [(sc *ProductionSendingClient) Send(request)]. *)
Definition ProductionSendingClient_Send
    {E : Env} {UE : json.Unmarshaler ErrorResponse} {US : json.Unmarshaler SendEmailResponse}
    (sc : ProductionSendingClient) (request : option SendEmailRequest)
  : Go (option SendEmailResponse * option Response * option error) :=
  match request with
  | None =>
      ret (None, None, Some (errors_New "request `SendEmailRequest` is mandatory"))
  | Some r =>
      match validate r with
      | Some err => ret (None, None, Some err)
      | None =>
          let* '(req, err) :=
            NewRequest (Production_client sc) http.MethodPost "/send" (Some r) in
          match err with
          | Some err => ret (None, None, Some err)
          | None =>
              let response := typedDest zero_SendEmailResponse in
              let* '(response, res, err) := Do (Production_client sc) req response in
              match err with
              | Some err => ret (None, res, Some err)
              | None => ret (Some (pointee zero_SendEmailResponse response), res, None)
              end
          end
      end
  end.

(** [(sc *SandboxSendingClient) Send(request)]. *)
Definition SandboxSendingClient_Send
    {E : Env} {UE : json.Unmarshaler ErrorResponse} {US : json.Unmarshaler SendEmailResponse}
    (sc : SandboxSendingClient) (request : option SendEmailRequest)
  : Go (option SendEmailResponse * option Response * option error) :=
  match request with
  | None =>
      ret (None, None, Some (errors_New "request `SendEmailRequest` is mandatory"))
  | Some r =>
      match validate r with
      | Some err => ret (None, None, Some err)
      | None =>
          let* '(req, err) :=
            NewRequest (Sandbox_client sc) http.MethodPost
                       ("/send/" +:+ fmt_int (inboxID sc)) (Some r) in
          match err with
          | Some err => ret (None, None, Some err)
          | None =>
              let response := typedDest zero_SendEmailResponse in
              let* '(response, res, err) := Do (Sandbox_client sc) req response in
              match err with
              | Some err => ret (None, res, Some err)
              | None => ret (Some (pointee zero_SendEmailResponse response), res, None)
              end
          end
      end
  end.

(** ** The testing client *)

(** [http.DefaultClient]: a client without timeout. *)
Definition http_DefaultClient : http.Client := {| http.Timeout := 0 |}.

(** [TestingClient]: the client; the declarations of its seven services,
    each of which holds a pointer to this client, are not in the sources
    at hand. *)
Record TestingClient := {
  Testing_client : client
}.

(** [NewTestingClient], up to the services. *)
Definition NewTestingClient {E : Env} (apiKey : string)
  : Go (option TestingClient * option error) :=
  match url_Parse testingAPIURL with
  | inr err => ret (None, Some err)
  | inl parsed =>
      let* baseURL := new_URL parsed in
      let* cur := deref (Some baseURL) in
      let* _ := assign_Path (Some baseURL) (Path cur +:+ apiSuffix) in
      ret (Some {| Testing_client :=
                     {| apiKey := apiKey;
                        baseURL := Some baseURL;
                        httpClient := Some http_DefaultClient;
                        userAgent := userAgent_var |} |}, None)
  end.

(** ** The example program

    The command of the example reads the key and the inbox from the
    environment, makes a sandbox client and sends one email. *)

(** [strconv.ParseUint(s, 10, 64)] on the digits of [s], from the value
    [n] of the digits read so far: the value, or why there is none.  A
    byte that is no digit is a syntax error where it stands; a value that
    passes [2^64 - 1] is out of range where it does. *)
Inductive NumError :=
| ErrSyntax
| ErrRange.

Definition maxUint64 : N := 18446744073709551615.

Fixpoint ParseUint_loop (n : N) (s : string) : N + NumError :=
  match s with
  | EmptyString => inl n
  | String c rest =>
      let code := N_of_ascii c in
      if (48 <=? code)%N && (code <=? 57)%N then
        if (maxUint64 / 10 + 1 <=? n)%N then inr ErrRange
        else
          let n1 := (n * 10 + (code - 48))%N in
          if (maxUint64 <? n1)%N then inr ErrRange
          else ParseUint_loop n1 rest
      else inr ErrSyntax
  end.

(** The two errors of [strconv.ParseInt], as values of [error]. *)
Definition strconv_error (why : NumError) : error :=
  match why with
  | ErrSyntax => libraryError "strconv.ParseInt: invalid syntax"
  | ErrRange => libraryError "strconv.ParseInt: value out of range"
  end.

(** [strconv.ParseInt(s, 10, 64)]: an optional sign, then at least one
    digit and nothing but digits; the value is a 64-bit integer. *)
Definition strconv_ParseInt (s : string) : Z + error :=
  match s with
  | EmptyString => inr (strconv_error ErrSyntax)
  | String c rest =>
      let neg := Ascii.eqb c "-" in
      let digits := if Ascii.eqb c "+" || Ascii.eqb c "-" then rest else s in
      match digits with
      | EmptyString => inr (strconv_error ErrSyntax)
      | _ =>
          match ParseUint_loop 0 digits with
          | inr ErrSyntax => inr (strconv_error ErrSyntax)
          | inr ErrRange => inr (strconv_error ErrRange)
          | inl un =>
              let cutoff := (2 ^ 63)%N in
              if negb neg && (cutoff <=? un)%N then inr (strconv_error ErrRange)
              else if neg && (cutoff <? un)%N then inr (strconv_error ErrRange)
              else inl (if neg then - Z.of_N un else Z.of_N un)%Z
          end
      end
  end.

(** [os.Getenv]: the value of the variable, empty when it is not set. *)
Definition os_Getenv (environ : gmap string string) (key : string) : string :=
  default EmptyString (environ !! key).

(** [emailRequest()] of the example. *)
Definition emailRequest : SendEmailRequest :=
  {| From_ := {| Email := "ches@example.com"; Name := "Ches" |};
     To := Some [ {| Email := "doe@example.com"; Name := "John Doe" |};
                  {| Email := "smith@example.com"; Name := "John Smith" |} ];
     Cc := Some [ {| Email := "email.cc@example.com"; Name := EmptyString |} ];
     Bcc := Some [ {| Email := "email.bcc@example.com"; Name := EmptyString |} ];
     Attachments :=
       Some [ {| Content := "PGh0bWw+CiAgICA8aGVhZD4KICAgICAgICA8dGl0bGU+YjY0PC90aXRsZT4KICAgIDwvaGVhZD4KICAgIDxib2R5PgogICAgPHA+SGVsbG8sIHdvcmxkITwvcD4KICAgIDwvYm9keT4KPC9odG1sPg==";
                 AttachType := "text/html";
                 Filename := "index.html";
                 Disposition := "attachment";
                 ContentID := EmptyString |} ];
     CustomVars := Some {[ "user_id" := "1"; "batch_id" := "2" ]};
     Headers := Some {[ "X-Message-Source" := "mail.example.com" ]};
     Subject := "API Client Test";
     Text := "Hello, world!";
     HTML := EmptyString;
     Category := "API Client" |}.

(** How the command ends: by [log.Fatal] or [log.Fatalf], which log the
    text, followed by the error when one is formatted into it, and exit
    with status 1; or after printing the response. *)
Inductive Exit :=
| Fatal (text : string) (err : option error)
| Printed (resp : option SendEmailResponse).

(** [main()], over the variables of the environment. *)
Definition main {E : Env} {UE : json.Unmarshaler ErrorResponse}
    {US : json.Unmarshaler SendEmailResponse}
    (environ : gmap string string) : Go Exit :=
  let apiKey := os_Getenv environ "MAILTRAP_API_KEY" in
  if String.eqb apiKey EmptyString then ret (Fatal "No API key present" None)
  else
    let mailboxIDStr := os_Getenv environ "MAILTRAP_INBOX_ID" in
    if String.eqb mailboxIDStr EmptyString
    then ret (Fatal "No mailbox ID present" None)
    else
      match strconv_ParseInt mailboxIDStr with
      | inr err => ret (Fatal "Mailbox ID should be a valid integer: " (Some err))
      | inl mailboxID =>
          let* '(made, err) := NewSandboxSendingClient apiKey mailboxID in
          match err, made with
          | Some err, _ => ret (Fatal EmptyString (Some err))
          | None, None => panic
          | None, Some sc =>
              let* '(resp, _, err) := SandboxSendingClient_Send sc (Some emailRequest) in
              match err with
              | Some err => ret (Fatal "Error sending email: " (Some err))
              | None => ret (Printed resp)
              end
          end
      end.

(** ** A sample environment

    One platform, one server and two decoders, to run the code on
    concrete inputs.  The server is the sending API seen from a client
    whose key is [secret]: it answers 401 with a JSON error to any other
    key, 200 with a send response to a request for the path /api/send,
    and 404 with a text otherwise.  The decoders know the two JSON
    payloads the server sends and reject every other input. *)

Module Sample.

(** Parsing and printing of URLs of the form scheme://host/path. *)
Definition Parse (s : string) : URL + error :=
  match index 0 "://" s with
  | Some i =>
      let rest := substring (i + 3) (String.length s - (i + 3)) s in
      match index 0 "/" rest with
      | Some j =>
          inl {| Scheme := substring 0 i s;
                 Host := substring 0 j rest;
                 Path := substring j (String.length rest - j) rest |}
      | None => inl {| Scheme := substring 0 i s; Host := rest; Path := EmptyString |}
      end
  | None => inr (libraryError "parse: missing protocol scheme")
  end.

Definition String_ (u : URL) : string :=
  Scheme u +:+ "://" +:+ Host u +:+ Path u.

Definition text_body (s : string) : http.Reader :=
  {| http.data := s; http.failure := None |}.

(** The payload [{"success":true,"message_ids":["0c7fd939"]}]. *)
Definition send_payload : string :=
  json.object [("success", "true");
               ("message_ids", json.array [json.quote "0c7fd939"])].

(** The payload [{"error":"Incorrect API token"}]. *)
Definition error_payload : string :=
  json.object [("error", json.quote "Incorrect API token")].

Definition server (hc : http.Client) (seen : list http.Request)
    (req : http.Request) : http.Response + error :=
  if negb (String.eqb (Header_Get "Authorization" (http.ReqHeader req))
                      "Bearer secret")
  then inl {| http.StatusCode := 401; http.RespHeader := ∅;
              http.Body := text_body error_payload |}
  else if String.eqb (Path (http.ReqURL req)) "/api/send"
  then inl {| http.StatusCode := 200; http.RespHeader := ∅;
              http.Body := text_body send_payload |}
  else inl {| http.StatusCode := 404; http.RespHeader := ∅;
              http.Body := text_body "404 page not found" |}.

#[export] Instance env : Env := {|
  GOOS := "linux";
  GOARCH := "amd64";
  runtime_Version := "go1.22.0";
  url_Parse := Parse;
  url_String := String_;
  Client_Do := server
|}.

Definition Unmarshal_ErrorResponse (data : string) (e : ErrorResponse)
  : ErrorResponse * option error :=
  if String.eqb data error_payload
  then ({| ErrorResponse_Response := ErrorResponse_Response e;
           ErrorResponse_Message := "Incorrect API token" |}, None)
  else (e, Some (libraryError "invalid character")).

Definition Unmarshal_SendEmailResponse (data : string) (v : SendEmailResponse)
  : SendEmailResponse * option error :=
  if String.eqb data send_payload
  then ({| Success := true; MessageIDs := Some ["0c7fd939"] |}, None)
  else (v, Some (libraryError "invalid character")).

Definition from_reader {T} (f : string → T → T * option error)
    (body : http.Reader) (v : T) : T * option error :=
  match http.failure body with
  | Some why => (v, Some (libraryError why))
  | None => f (http.data body) v
  end.

#[export] Instance UE : json.Unmarshaler ErrorResponse := {|
  json.Unmarshal := Unmarshal_ErrorResponse;
  json.Decode := from_reader Unmarshal_ErrorResponse
|}.

#[export] Instance US : json.Unmarshaler SendEmailResponse := {|
  json.Unmarshal := Unmarshal_SendEmailResponse;
  json.Decode := from_reader Unmarshal_SendEmailResponse
|}.

(** Nothing allocated, nothing sent. *)
Definition world0 : World := {| store := ∅; wire := [] |}.

(** The production client for the key [secret] as [NewSendingClient]
    makes it in [world0], and the world it leaves. *)
Definition base1 : URL :=
  {| Scheme := "https"; Host := "send.api.mailtrap.io"; Path := "/api" |}.

Definition client1 : client :=
  {| apiKey := "secret";
     baseURL := Some 1%positive;
     userAgent := "mailtrap-go/0.1.2 (linux amd64) go/go1.22.0";
     httpClient := Some {| http.Timeout := 30000000000 |} |}.

Definition world1 : World := {| store := {[1%positive := base1]}; wire := [] |}.

(** A request made by hand for the path /api/send, with the key and
    without an [Accept] header. *)
Definition plain_request : http.Request :=
  {| http.Method := "POST";
     http.ReqURL := with_Path base1 "/api/send";
     http.ReqHeader := {["Authorization" := ["Bearer secret"]]};
     http.ReqBody := http.NoBody |}.

(** The answers of the server to a request for the path /api/send and to
    one for another path. *)
Definition answer_200 : http.Response :=
  {| http.StatusCode := 200; http.RespHeader := ∅;
     http.Body := text_body send_payload |}.

Definition answer_404 : http.Response :=
  {| http.StatusCode := 404; http.RespHeader := ∅;
     http.Body := text_body "404 page not found" |}.

(** The request of the example program, cut down to what is required. *)
Definition email : SendEmailRequest :=
  {| From_ := {| Email := "ches@example.com"; Name := "Ches" |};
     To := Some [{| Email := "doe@example.com"; Name := "John Doe" |}];
     Cc := None; Bcc := None; Attachments := None;
     Headers := None; CustomVars := None;
     Subject := "API Client Test"; Text := "Hello, world!";
     HTML := EmptyString; Category := "API Client" |}.

(** The requests of the tests of the package, one for each rule. *)
Definition address (email : string) : EmailAddress :=
  {| Email := email; Name := EmptyString |}.

Definition request (from : string) (to : slice EmailAddress)
    (attachments : slice EmailAttachment) (subject text category : string)
  : SendEmailRequest :=
  {| From_ := address from; To := to; Cc := None; Bcc := None;
     Attachments := attachments; Headers := None; CustomVars := None;
     Subject := subject; Text := text; HTML := EmptyString;
     Category := category |}.

Definition zero_EmailAttachment : EmailAttachment :=
  {| Content := EmptyString; AttachType := EmptyString; Filename := EmptyString;
     Disposition := EmptyString; ContentID := EmptyString |}.

Definition to_one : slice EmailAddress := Some [address "email@example.com"].

Definition notValidEmailFrom : SendEmailRequest :=
  request EmptyString (Some [address "test@example.com"]) None
          EmptyString EmptyString EmptyString.

Definition notValidEmailTo : SendEmailRequest :=
  request "test@example.com" None None EmptyString EmptyString EmptyString.

Definition notValidEmailToEntry : SendEmailRequest :=
  request "test@example.com" (Some [address EmptyString]) None
          EmptyString EmptyString EmptyString.

Definition notValidAttachment : SendEmailRequest :=
  request "test@example.com" to_one (Some [zero_EmailAttachment])
          EmptyString EmptyString EmptyString.

Definition missedSubject : SendEmailRequest :=
  request "test@example.com" to_one None EmptyString EmptyString EmptyString.

Definition textOrHTMLRequired : SendEmailRequest :=
  request "test@example.com" to_one None "Subj." EmptyString EmptyString.

(** [strings.Repeat("c", 260)]. *)
Definition categoryTooLong : SendEmailRequest :=
  request "test@example.com" to_one None "Subj." "Test"
          (String.concat EmptyString (replicate 260 "c")).

(** A sandbox client for the inbox 42 on the same core. *)
Definition sandbox1 : SandboxSendingClient :=
  {| Sandbox_client := client1; inboxID := 42 |}.

End Sample.

(** ** The specification's side *)

(** The seven validation rules, in the order of the specification. *)
Inductive Rule :=
| FromEmail
| ToNonEmpty
| ToEntryEmail
| AttachmentFields
| SubjectNonEmpty
| TextOrHTML
| CategoryLength.

Definition rules : list Rule :=
  [FromEmail; ToNonEmpty; ToEntryEmail; AttachmentFields; SubjectNonEmpty;
   TextOrHTML; CategoryLength].

(** The rules that come before a rule. *)
Definition earlier (rule : Rule) : list Rule :=
  match rule with
  | FromEmail => []
  | ToNonEmpty => [FromEmail]
  | ToEntryEmail => [FromEmail; ToNonEmpty]
  | AttachmentFields => [FromEmail; ToNonEmpty; ToEntryEmail]
  | SubjectNonEmpty => [FromEmail; ToNonEmpty; ToEntryEmail; AttachmentFields]
  | TextOrHTML =>
      [FromEmail; ToNonEmpty; ToEntryEmail; AttachmentFields; SubjectNonEmpty]
  | CategoryLength =>
      [FromEmail; ToNonEmpty; ToEntryEmail; AttachmentFields; SubjectNonEmpty;
       TextOrHTML]
  end.

(** What a rule asks of a request. *)
Definition satisfies (r : SendEmailRequest) (rule : Rule) : Prop :=
  match rule with
  | FromEmail => Email (From_ r) ≠ EmptyString
  | ToNonEmpty => elems (To r) ≠ []
  | ToEntryEmail => Forall (λ a, Email a ≠ EmptyString) (elems (To r))
  | AttachmentFields =>
      Forall (λ a, Content a ≠ EmptyString ∧ Filename a ≠ EmptyString)
             (elems (Attachments r))
  | SubjectNonEmpty => Subject r ≠ EmptyString
  | TextOrHTML => Text r ≠ EmptyString ∨ HTML r ≠ EmptyString
  | CategoryLength => (String.length (Category r) ≤ 255)%nat
  end.

#[global] Instance satisfies_dec (r : SendEmailRequest) (rule : Rule)
  : Decision (satisfies r rule).
Proof. destruct rule; simpl; apply _. Defined.

Definition content_required : string := "'content' is required in attachment".
Definition filename_required : string := "'filename' is required in attachment".

(** The problems of one attachment: its content first, then its name. *)
Definition attachment_problems (a : EmailAttachment) : list string :=
  (if decide (Content a = EmptyString) then [content_required] else [])
  ++ (if decide (Filename a = EmptyString) then [filename_required] else []).

(** All the problems of the attachments of a request. *)
Definition accumulated (r : SendEmailRequest) : list string :=
  elems (Attachments r) ≫= attachment_problems.

(** The value of [errMsg] in [validate] when the loop over the
    attachments has ended. *)
Definition errMsg_at_end (r : SendEmailRequest) : list string :=
  foldl range_Attachments_body [] (elems (Attachments r)).

(** The message of the specification for a request that breaks a rule. *)
Definition message (r : SendEmailRequest) (rule : Rule) : string :=
  match rule with
  | FromEmail => "'from' address is required"
  | ToNonEmpty => "'to' address is required"
  | ToEntryEmail => "'email' is required in 'to' address"
  | AttachmentFields => strings_Join (accumulated r) "; "
  | SubjectNonEmpty => "'subject' is required"
  | TextOrHTML => "one of 'text' or 'html' is required"
  | CategoryLength => "'category' is greater than 255 chars"
  end.

(** Both clients refuse the request with this error, whatever the client
    and the world, and leave the world as it is: nothing is written to
    the store, nothing goes over the network. *)
Definition refused
    {E : Env} {UE : json.Unmarshaler ErrorResponse} {US : json.Unmarshaler SendEmailResponse}
    (request : option SendEmailRequest) (err : error) : Prop :=
  ∀ (p : ProductionSendingClient) (s : SandboxSendingClient) (w : World),
    ProductionSendingClient_Send p request w = Returns (None, None, Some err) w
    ∧ SandboxSendingClient_Send s request w = Returns (None, None, Some err) w.

(** A request carries bytes. *)
Definition has_body (req : http.Request) : bool :=
  match http.ReqBody req with
  | http.BufferBody _ => true
  | _ => false
  end.

(** A request has this header. *)
Definition has_header (key : string) (req : http.Request) : Prop :=
  is_Some (http.ReqHeader req !! key).

(** The world after a request went over the network. *)
Definition sent (req : http.Request) (w : World) : World :=
  {| store := store w; wire := req :: wire w |}.

(** The state of the transport core: the fields of the client and the
    base address that its pointer refers to. *)
Definition core_state (c : client) (w : World)
  : string * option URL * string :=
  (apiKey c, baseURL c ≫= (store w !!.), userAgent c).

(** The two targets of the specification, and their paths. *)
Inductive Target :=
| Direct
| Sandbox (inbox_id : Z).

Definition target_path (t : Target) : string :=
  match t with
  | Direct => "/send"
  | Sandbox inbox_id => "/send/" +:+ fmt_int inbox_id
  end.

(** [send(request)] of the specification, over a transport core and a
    target: fail on a null request, validate, build a POST request with
    the request as body, execute it and decode into the send response. *)
Definition send_spec
    {E : Env} {UE : json.Unmarshaler ErrorResponse} {US : json.Unmarshaler SendEmailResponse}
    (core : client) (t : Target) (request : option SendEmailRequest)
  : Go (option SendEmailResponse * option Response * option error) :=
  match request with
  | None =>
      ret (None, None, Some (errors_New "request `SendEmailRequest` is mandatory"))
  | Some r =>
      match validate r with
      | Some err => ret (None, None, Some err)
      | None =>
          let* built := NewRequest core "POST" (target_path t) (Some r) in
          match built.2 with
          | Some err => ret (None, None, Some err)
          | None =>
              let* done := Do core built.1 (typedDest zero_SendEmailResponse) in
              match done.2 with
              | Some err => ret (None, done.1.2, Some err)
              | None => ret (Some (pointee zero_SendEmailResponse done.1.1), done.1.2, None)
              end
          end
      end
  end.

(** A string between double quotes. *)
Definition quoted (s : string) : string := json.dquote +:+ s +:+ json.dquote.

(** The JSON text
    [{"from":{"email":"","name":""},"to":null,"cc":null,"bcc":null,
      "attachments":null,"headers":null,"custom_variables":null,
      "subject":"","text":"","html":"","category":""}]
    (on one line). *)
Definition zero_request_json : string :=
  String.concat EmptyString
    ["{"; quoted "from"; ":{"; quoted "email"; ":"; quoted EmptyString; ",";
     quoted "name"; ":"; quoted EmptyString; "},";
     quoted "to"; ":null,"; quoted "cc"; ":null,"; quoted "bcc"; ":null,";
     quoted "attachments"; ":null,"; quoted "headers"; ":null,";
     quoted "custom_variables"; ":null,";
     quoted "subject"; ":"; quoted EmptyString; ",";
     quoted "text"; ":"; quoted EmptyString; ",";
     quoted "html"; ":"; quoted EmptyString; ",";
     quoted "category"; ":"; quoted EmptyString; "}"].

(** Two attachments agree on what validation reads. *)
Definition same_checked_fields (a b : EmailAttachment) : Prop :=
  Content a = Content b ∧ Filename a = Filename b.

(** A request with other copies, headers, variables and attachments. *)
Definition with_unchecked (r : SendEmailRequest)
    (cc bcc : slice EmailAddress) (headers vars : option (gmap string string))
    (attachments : slice EmailAttachment) : SendEmailRequest :=
  {| From_ := From_ r; To := To r; Cc := cc; Bcc := bcc;
     Attachments := attachments; Headers := headers; CustomVars := vars;
     Subject := Subject r; Text := Text r; HTML := HTML r;
     Category := Category r |}.

(** ** What the added properties speak of *)

(** What validation reads of a request: the email of the sender, the
    emails of the recipients, the content and the filename of each
    attachment, the subject, the two bodies and the category. *)
Definition checked_fields (r : SendEmailRequest)
  : string * list string * list (string * string) * string * string * string
    * string :=
  (Email (From_ r), Email <$> elems (To r),
   (λ a, (Content a, Filename a)) <$> elems (Attachments r),
   Subject r, Text r, HTML r, Category r).

(** The request that [Send] builds for a valid request [r], once the
    address [u] of the target is parsed: a POST with the four headers of
    [NewRequest] and the encoding of [r], ended by a newline, as body. *)
Definition send_request (core : client) (u : URL) (r : SendEmailRequest)
  : http.Request :=
  {| http.Method := "POST";
     http.ReqURL := u;
     http.ReqHeader :=
       {[ "Authorization" := ["Bearer " +:+ apiKey core];
          "User-Agent" := [userAgent core];
          "Accept" := ["application/json"];
          "Content-Type" := ["application/json"] ]};
     http.ReqBody :=
       http.BufferBody (json.of_SendEmailRequest r +:+ String "010"%char EmptyString) |}.

(** The world after a [NewRequest] for [path] on the base address at
    [l]. *)
Definition moved (l : loc) (base : URL) (path : string) (w : World) : World :=
  {| store := <[l := with_Path base (Path base +:+ path)]> (store w);
     wire := wire w |}.

(** A client that [NewRequest] and [Do] can use in a world: its base
    address is allocated and it has a transport. *)
Definition usable (c : client) (w : World) : Prop :=
  is_Some (baseURL c ≫= (store w !!.)) ∧ is_Some (httpClient c).

(** A status of success. *)
Definition is_2xx (resp : http.Response) : Prop :=
  (200 ≤ http.StatusCode resp ≤ 299)%Z.

(** [Send] of the sending client for a target, over a core. *)
Definition Send_at {E : Env} {UE : json.Unmarshaler ErrorResponse}
    {US : json.Unmarshaler SendEmailResponse}
    (core : client) (t : Target) (request : option SendEmailRequest)
  : Go (option SendEmailResponse * option Response * option error) :=
  match t with
  | Direct => ProductionSendingClient_Send {| Production_client := core |} request
  | Sandbox inbox_id =>
      SandboxSendingClient_Send {| Sandbox_client := core; inboxID := inbox_id |}
                                request
  end.

(** What [Send] returns for the answer of the transport: the error of
    the transport alone; for a status outside 200 to 299 the response
    and the error of [checkResponse]; otherwise the response and the
    body decoded into a send response, or the error of the decoder. *)
Definition send_result {UE : json.Unmarshaler ErrorResponse}
    {US : json.Unmarshaler SendEmailResponse}
    (answer : http.Response + error)
  : option SendEmailResponse * option Response * option error :=
  match answer with
  | inr err => (None, None, Some err)
  | inl resp =>
      let response := Some {| Response_http := resp |} in
      match checkResponse resp with
      | Some err => (None, response, Some err)
      | None =>
          match json.Decode (http.Body resp) zero_SendEmailResponse with
          | (_, Some err) => (None, response, Some err)
          | (decoded, None) => (Some decoded, response, None)
          end
      end
  end.

(** ** More samples *)

Module Sample2.

(** The sample environment with no network: every request fails. *)
Definition refused_connection : error :=
  libraryError "dial tcp: connection refused".

#[export] Instance offline : Env := {|
  GOOS := "linux";
  GOARCH := "amd64";
  runtime_Version := "go1.22.0";
  url_Parse := Sample.Parse;
  url_String := Sample.String_;
  Client_Do := λ _ _ _, inr refused_connection
|}.

(** A body and a type of bodies that the encoder refuses. *)
Inductive Channel := channel.

#[export] Instance Marshaler_Channel : json.Marshaler Channel :=
  λ _, inr (libraryError "json: unsupported type: chan int").

(** The environment of the example: the key and the inbox 42. *)
Definition environ : gmap string string :=
  {[ "MAILTRAP_API_KEY" := "secret"; "MAILTRAP_INBOX_ID" := "42" ]}.

(** The sandbox client for the key [secret] as [NewSandboxSendingClient]
    makes it in [Sample.world0], and its base address. *)
Definition sandbox_base : URL :=
  {| Scheme := "https"; Host := "sandbox.api.mailtrap.io"; Path := "/api" |}.

Definition sandbox_core : client :=
  {| apiKey := "secret";
     baseURL := Some 1%positive;
     userAgent := "mailtrap-go/0.1.2 (linux amd64) go/go1.22.0";
     httpClient := Some {| http.Timeout := 30000000000 |} |}.

(** An answer without body. *)
Definition answer_500 : http.Response :=
  {| http.StatusCode := 500; http.RespHeader := ∅;
     http.Body := Sample.text_body EmptyString |}.

End Sample2.

(** ** Tactics *)

(** A decidable proposition that holds, by computation. *)
Ltac by_computation := apply (bool_decide_unpack _); vm_compute; exact I.

(** * Validation *)

Lemma eqb_empty_true (s : string) : s = EmptyString → String.eqb s EmptyString = true.
Proof. intros ->. reflexivity. Qed.

Lemma eqb_empty_false (s : string) : s ≠ EmptyString → String.eqb s EmptyString = false.
Proof. intros Hs. by apply String.eqb_neq. Qed.

Lemma fmt_int_categoryMaxLength : fmt_int categoryMaxLength = "255".
Proof. vm_compute. reflexivity. Qed.

(** The loop over [To] finds the first entry without an email. *)
Lemma range_To_None (to : list EmailAddress) :
  Forall (λ a, Email a ≠ EmptyString) to → range_To to = None.
Proof.
  induction 1 as [|a to Ha _ IH]; simpl; [done|].
  by rewrite (eqb_empty_false _ Ha).
Qed.

Lemma range_To_Some (to : list EmailAddress) :
  ¬ Forall (λ a, Email a ≠ EmptyString) to →
  range_To to = Some (errors_New "'email' is required in 'to' address").
Proof.
  induction to as [|a to IH]; intros Hnot; simpl.
  - destruct Hnot. constructor.
  - destruct (String.eqb_spec (Email a) EmptyString) as [|Ha]; [done|].
    apply IH. intros Hall. apply Hnot. by constructor.
Qed.

(** One step of the loop over the attachments appends the problems of
    the attachment. *)
Lemma range_Attachments_body_app (errMsg : list string) (v : EmailAttachment) :
  range_Attachments_body errMsg v = (errMsg ++ attachment_problems v)%list.
Proof.
  unfold range_Attachments_body, attachment_problems, content_required,
    filename_required.
  destruct (String.eqb_spec (Content v) EmptyString),
    (String.eqb_spec (Filename v) EmptyString);
    destruct (decide (Content v = EmptyString)),
      (decide (Filename v = EmptyString)); try done; simpl;
    by rewrite <- ?(assoc_L (++)), ?(right_id_L [] (++)).
Qed.

(** The loop visits every attachment: it ends with all their problems. *)
Lemma range_Attachments_all (errMsg : list string) (l : list EmailAttachment) :
  foldl range_Attachments_body errMsg l = (errMsg ++ (l ≫= attachment_problems))%list.
Proof.
  revert errMsg. induction l as [|v l IH]; intros errMsg.
  - simpl. by rewrite (right_id_L [] (++)).
  - rewrite bind_cons. simpl foldl.
    by rewrite IH, range_Attachments_body_app, <- (assoc_L (++)).
Qed.

Lemma attachment_problems_nil (a : EmailAttachment) :
  attachment_problems a = [] ↔ Content a ≠ EmptyString ∧ Filename a ≠ EmptyString.
Proof.
  unfold attachment_problems.
  destruct (decide (Content a = EmptyString)),
    (decide (Filename a = EmptyString)); simpl; split; try done; tauto.
Qed.

Lemma accumulated_nil (r : SendEmailRequest) :
  accumulated r = [] ↔ satisfies r AttachmentFields.
Proof.
  unfold accumulated. simpl. induction (elems (Attachments r)) as [|a l IH].
  - split; [constructor|done].
  - rewrite bind_cons, Forall_cons, <- IH, <- attachment_problems_nil.
    split; [by intros [??]%app_eq_nil|by intros [-> ->]].
Qed.

(** The attachment step of [validate], by what was accumulated. *)
Lemma attachments_step (r : SendEmailRequest) :
  (if (0 <? len (Attachments r))%nat then
     let errMsg := foldl range_Attachments_body [] (elems (Attachments r)) in
     if (0 <? length errMsg)%nat
     then Some (errors_New (strings_Join errMsg "; ")) else None
   else None)
  = match accumulated r with
    | [] => None
    | _ => Some (errors_New (strings_Join (accumulated r) "; "))
    end.
Proof.
  unfold len, accumulated. rewrite range_Attachments_all.
  rewrite (left_id_L [] (++)).
  destruct (elems (Attachments r)) as [|a l] eqn:E; [done|].
  change (0 <? length (a :: l))%nat with true. cbv iota zeta.
  destruct ((a :: l) ≫= attachment_problems); done.
Qed.

(** [validate] as a cascade over the seven rules. *)
Lemma validate_cascade (r : SendEmailRequest) :
  validate r =
    if decide (satisfies r FromEmail) then
      if decide (satisfies r ToNonEmpty) then
        if decide (satisfies r ToEntryEmail) then
          if decide (satisfies r AttachmentFields) then
            if decide (satisfies r SubjectNonEmpty) then
              if decide (satisfies r TextOrHTML) then
                if decide (satisfies r CategoryLength) then None
                else Some (errors_New (message r CategoryLength))
              else Some (errors_New (message r TextOrHTML))
            else Some (errors_New (message r SubjectNonEmpty))
          else Some (errors_New (message r AttachmentFields))
        else Some (errors_New (message r ToEntryEmail))
      else Some (errors_New (message r ToNonEmpty))
    else Some (errors_New (message r FromEmail)).
Proof.
  unfold validate. rewrite attachments_step.
  destruct (decide (satisfies r FromEmail)) as [H1|H1]; simpl in H1.
  2:{ rewrite eqb_empty_true; [done|]. by destruct (decide (Email (From_ r) = EmptyString)). }
  rewrite (eqb_empty_false _ H1).
  destruct (decide (satisfies r ToNonEmpty)) as [H2|H2]; simpl in H2.
  2:{ unfold len. destruct (elems (To r)); [done|]. by destruct H2. }
  replace (len (To r) =? 0)%nat with false
    by (unfold len; by destruct (elems (To r))).
  destruct (decide (satisfies r ToEntryEmail)) as [H3|H3]; simpl in H3.
  2:{ rewrite (range_To_Some _ H3). reflexivity. }
  rewrite (range_To_None _ H3).
  destruct (decide (satisfies r AttachmentFields)) as [H4|H4].
  2:{ simpl message. destruct (accumulated r) eqn:E; [|done].
      destruct H4. by apply accumulated_nil. }
  apply accumulated_nil in H4 as ->.
  destruct (decide (satisfies r SubjectNonEmpty)) as [H5|H5]; simpl in H5.
  2:{ rewrite eqb_empty_true; [done|]. by destruct (decide (Subject r = EmptyString)). }
  rewrite (eqb_empty_false _ H5).
  destruct (decide (satisfies r TextOrHTML)) as [H6|H6]; simpl in H6.
  2:{ rewrite !eqb_empty_true; [done| |].
      - destruct (decide (HTML r = EmptyString)); [done|]. destruct H6. by right.
      - destruct (decide (Text r = EmptyString)); [done|]. destruct H6. by left. }
  replace (String.eqb (Text r) EmptyString && String.eqb (HTML r) EmptyString)
    with false
    by (destruct H6 as [H6|H6]; rewrite (eqb_empty_false _ H6);
        [done|by rewrite andb_false_r]).
  rewrite fmt_int_categoryMaxLength. unfold categoryMaxLength.
  destruct (decide (satisfies r CategoryLength)) as [H7|H7]; simpl in H7.
  - by replace (255 <? Z.of_nat (String.length (Category r)))%Z with false
      by (symmetry; apply Z.ltb_ge; lia).
  - by replace (255 <? Z.of_nat (String.length (Category r)))%Z with true
      by (symmetry; apply Z.ltb_lt; lia).
Qed.

(** A request that breaks a rule, and none before it, gets the message
    of that rule, whatever it does to the later rules. *)
Lemma validate_first_broken (r : SendEmailRequest) (rule : Rule) :
  Forall (satisfies r) (earlier rule) → ¬ satisfies r rule →
  validate r = Some (errors_New (message r rule)).
Proof.
  intros Hearlier Hrule. rewrite validate_cascade.
  destruct rule; simpl earlier in Hearlier;
    repeat (apply Forall_cons in Hearlier as [? Hearlier]);
    repeat (rewrite decide_True by assumption);
    by rewrite decide_False by assumption.
Qed.

Lemma validate_None (r : SendEmailRequest) :
  validate r = None ↔ Forall (satisfies r) rules.
Proof.
  rewrite validate_cascade. split.
  - intros Hnone.
    repeat (destruct (decide _) as [?|?] in Hnone; [|discriminate]).
    unfold rules. repeat (apply Forall_cons; split; [assumption|]).
    constructor.
  - intros Hall. unfold rules in Hall.
    repeat (apply Forall_cons in Hall as [? Hall]).
    by repeat (rewrite decide_True by assumption).
Qed.

(** The value of [errMsg] when the loop over the attachments ends. *)
Lemma errMsg_at_end_accumulated (r : SendEmailRequest) :
  errMsg_at_end r = accumulated r.
Proof. unfold errMsg_at_end. by rewrite range_Attachments_all. Qed.

Lemma count_content_required (l : list EmailAttachment) :
  length (filter (.= content_required) (l ≫= attachment_problems))
  = length (filter (λ a, Content a = EmptyString) l).
Proof.
  induction l as [|a l IH]; [done|].
  rewrite bind_cons, filter_app, length_app, IH, filter_cons.
  unfold attachment_problems.
  destruct (decide (Content a = EmptyString)),
    (decide (Filename a = EmptyString)); reflexivity.
Qed.

Lemma count_filename_required (l : list EmailAttachment) :
  length (filter (.= filename_required) (l ≫= attachment_problems))
  = length (filter (λ a, Filename a = EmptyString) l).
Proof.
  induction l as [|a l IH]; [done|].
  rewrite bind_cons, filter_app, length_app, IH, filter_cons.
  unfold attachment_problems.
  destruct (decide (Content a = EmptyString)),
    (decide (Filename a = EmptyString)); reflexivity.
Qed.

Section Sending.
Context {E : Env} {UE : json.Unmarshaler ErrorResponse}
        {US : json.Unmarshaler SendEmailResponse}.

(** An error of validation is what both clients return, and they stop
    there. *)
Lemma refused_by_validate (r : SendEmailRequest) (err : error) :
  validate r = Some err → refused (Some r) err.
Proof.
  intros Hv p s w. unfold ProductionSendingClient_Send, SandboxSendingClient_Send.
  by rewrite Hv.
Qed.

(** C1.  A request that breaks one of the seven rules, and none of the
    rules before it in the order of the specification, is refused with
    the message of that rule, whatever it does to the rules after it:
    [validate] returns the error with exactly this text, and [Send] of
    both clients returns it, with no response, in every world and
    without changing it.  For the rule on attachments the text is that of
    all their problems, joined. *)
Theorem first_broken_rule_decides (r : SendEmailRequest) (rule : Rule) :
  Forall (satisfies r) (earlier rule) → ¬ satisfies r rule →
  validate r = Some (errors_New (message r rule))
  ∧ refused (Some r) (errors_New (message r rule)).
Proof.
  intros Hearlier Hrule.
  pose proof (validate_first_broken r rule Hearlier Hrule) as Hv.
  split; [exact Hv|by apply refused_by_validate].
Qed.

(** C3.  For a request that satisfies the rules on [from], [to] and the
    entries of [to], and has attachments: when the loop over them ends,
    [errMsg] holds the problems of every attachment, in their order: one
    message on the content for every attachment with empty content and
    one on the filename for every attachment with empty filename (for a
    single attachment that lacks both: the content first, then the
    filename); and if it holds any, [validate] returns them all,
    joined with a semicolon and a space, as one error, which both clients
    return. *)
Theorem attachment_problems_are_accumulated (r : SendEmailRequest) :
  Forall (satisfies r) (earlier AttachmentFields) →
  elems (Attachments r) ≠ [] →
  let errMsg := errMsg_at_end r in
  errMsg = accumulated r
  ∧ length (filter (.= content_required) errMsg)
    = length (filter (λ a, Content a = EmptyString) (elems (Attachments r)))
  ∧ length (filter (.= filename_required) errMsg)
    = length (filter (λ a, Filename a = EmptyString) (elems (Attachments r)))
  ∧ (∀ a, elems (Attachments r) = [a] → Content a = EmptyString →
          Filename a = EmptyString →
          errMsg = [content_required; filename_required])
  ∧ (errMsg ≠ [] →
     validate r = Some (errors_New (strings_Join errMsg "; "))
     ∧ refused (Some r) (errors_New (strings_Join errMsg "; "))).
Proof.
  intros Hearlier _ errMsg. subst errMsg. rewrite errMsg_at_end_accumulated.
  split; [reflexivity|].
  split; [apply count_content_required|].
  split; [apply count_filename_required|].
  split.
  - intros a Ha Hc Hf. unfold accumulated. rewrite Ha. simpl.
    unfold attachment_problems. by rewrite !decide_True by done.
  - intros Hsome.
    assert (validate r = Some (errors_New (strings_Join (accumulated r) "; ")))
      as Hv.
    { apply (validate_first_broken r AttachmentFields Hearlier).
      by rewrite <- accumulated_nil. }
    split; [exact Hv|by apply refused_by_validate].
Qed.

End Sending.

(** A rule holds or not by the fields that validation reads. *)
Lemma satisfies_with_unchecked
    (r : SendEmailRequest) (cc bcc : slice EmailAddress)
    (headers vars : option (gmap string string))
    (attachments : slice EmailAttachment) (rule : Rule) :
  Forall2 same_checked_fields (elems (Attachments r)) (elems attachments) →
  satisfies r rule →
  satisfies (with_unchecked r cc bcc headers vars attachments) rule.
Proof.
  intros Hsame. destruct rule; simpl; try done.
  induction Hsame as [|a b l k [Hc Hf] _ IH]; [done|].
  rewrite !Forall_cons. intros [Ha Hl]. split; [|by apply IH].
  by rewrite <- Hc, <- Hf.
Qed.

(** C10.  Validation reads [from], [to], the content and the filename
    of the attachments, the subject, the text, the HTML and the category
    only: a request that satisfies the seven rules is valid with any
    lists of copies and blind copies (entries without email too), any
    maps of headers and of custom variables, and any types,
    dispositions and content identifiers of its attachments. *)
Theorem validation_reads_only_checked_fields
    (r : SendEmailRequest) (cc bcc : slice EmailAddress)
    (headers vars : option (gmap string string))
    (attachments : slice EmailAttachment) :
  Forall (satisfies r) rules →
  Forall2 same_checked_fields (elems (Attachments r)) (elems attachments) →
  validate (with_unchecked r cc bcc headers vars attachments) = None.
Proof.
  intros Hall Hsame. apply validate_None.
  apply (Forall_impl _ _ _ Hall). intros rule.
  by apply satisfies_with_unchecked.
Qed.

(** * Building a request *)

Section Building.
Context {E : Env} {B : Type} {MB : json.Marshaler B}.

(** What [http.NewRequest] makes, when it makes a request. *)
Lemma http_NewRequest_inl (method url : string) (body : option string)
    (req : http.Request) :
  http_NewRequest method url body = inl req →
  http.Method req = (if String.eqb method EmptyString then "GET" else method)
  ∧ url_Parse url = inl (http.ReqURL req)
  ∧ http.ReqHeader req = ∅
  ∧ http.ReqBody req = match body with
                       | None => http.NilBody
                       | Some buf => if (String.length buf =? 0)%nat
                                     then http.NoBody else http.BufferBody buf
                       end.
Proof.
  unfold http_NewRequest. destruct (negb _); [done|].
  destruct (url_Parse url) as [u|err]; [|done].
  intros [= <-]. done.
Qed.

(** [NewRequest], run in a world where the base address is allocated:
    the path is appended to the base address in the store, and the
    request is made for the address so obtained. *)
Lemma NewRequest_run (c : client) (method path : string) (body : option B)
    (w : World) (l : loc) (base : URL) :
  baseURL c = Some l → store w !! l = Some base →
  let target := with_Path base (Path base +:+ path) in
  let w' := {| store := <[l := target]> (store w); wire := wire w |} in
  NewRequest c method path body w =
    match NewRequest_switch target method body with
    | inr err => Returns (None, Some err) w'
    | inl req =>
        Returns (Some (with_Header req (NewRequest_headers c body (http.ReqHeader req))),
                 None) w'
    end.
Proof.
  intros Hc Hl target w'. unfold NewRequest, bind, deref, assign_Path.
  rewrite Hc. simpl. rewrite Hl. simpl. rewrite Hl. simpl.
  rewrite lookup_insert_eq.
  fold target.
  by destruct (NewRequest_switch target method body).
Qed.

(** Without a base address to read, [NewRequest] panics. *)
Lemma NewRequest_panics (c : client) (method path : string) (body : option B)
    (w : World) :
  baseURL c ≫= (store w !!.) = None →
  NewRequest c method path body w = Panics.
Proof.
  intros Hnone. unfold NewRequest, bind, deref.
  destruct (baseURL c) as [l|]; [|done]. simpl in Hnone. by rewrite Hnone.
Qed.

Lemma NewRequest_headers_Accept (c : client) (body : option B) (h : Header) :
  Header_Get "Accept" (NewRequest_headers c body h) = "application/json".
Proof.
  unfold NewRequest_headers, Header_Get, Header_Set.
  rewrite !lookup_insert_ne by done. by rewrite lookup_insert_eq.
Qed.

Lemma NewRequest_headers_User_Agent (c : client) (body : option B) (h : Header) :
  Header_Get "User-Agent" (NewRequest_headers c body h) = userAgent c.
Proof.
  unfold NewRequest_headers, Header_Get, Header_Set.
  rewrite !lookup_insert_ne by done. by rewrite lookup_insert_eq.
Qed.

Lemma NewRequest_headers_Authorization (c : client) (body : option B) (h : Header) :
  Header_Get "Authorization" (NewRequest_headers c body h) = "Bearer " +:+ apiKey c.
Proof.
  unfold NewRequest_headers, Header_Get, Header_Set. by rewrite lookup_insert_eq.
Qed.

Lemma NewRequest_headers_Content_Type (c : client) (body : option B) :
  NewRequest_headers c body ∅ !! "Content-Type"
  = match body with Some _ => Some ["application/json"] | None => None end.
Proof.
  unfold NewRequest_headers, Header_Set. rewrite !lookup_insert_ne by done.
  destruct body; [by rewrite lookup_insert_eq|by rewrite lookup_empty].
Qed.

End Building.

Lemma bodyless_methods (method : string) :
  bodyless method = true ↔ method ∈ ["GET"; "HEAD"; "OPTIONS"].
Proof.
  unfold bodyless, http.MethodGet, http.MethodHead, http.MethodOptions.
  rewrite !orb_true_iff, !String.eqb_eq, !elem_of_cons, elem_of_nil. tauto.
Qed.

Section Requests.
Context {E : Env} {B : Type} {MB : json.Marshaler B}.

(** C4, amended.  A request that [NewRequest] returns has the headers
    [Accept: application/json], [User-Agent] with the user agent of the
    client and [Authorization] with [Bearer] and the key; it has no body
    for GET, HEAD and OPTIONS; for another method a body that is not nil
    is there as its JSON encoding followed by a newline, and a nil body
    gives an empty one; and it has the header [Content-Type], then with
    the value [application/json], if and only if the body given to
    [NewRequest] is not nil, whatever the method.  [NewRequest] does
    return a request when the base address is allocated, the method is
    valid, the address parses and the body can be encoded. *)
Theorem NewRequest_builds (c : client) (method path : string) (body : option B)
    (w : World) :
  (∀ (req : http.Request) (w' : World),
     NewRequest c method path body w = Returns (Some req, None) w' →
     Header_Get "Accept" (http.ReqHeader req) = "application/json"
     ∧ Header_Get "User-Agent" (http.ReqHeader req) = userAgent c
     ∧ Header_Get "Authorization" (http.ReqHeader req) = "Bearer " +:+ apiKey c
     ∧ (method ∈ ["GET"; "HEAD"; "OPTIONS"] → http.ReqBody req = http.NilBody)
     ∧ (method ∉ ["GET"; "HEAD"; "OPTIONS"] →
        match body with
        | Some b =>
            ∃ js, json.Marshal b = inl js
                  ∧ http.ReqBody req
                    = http.BufferBody (js +:+ String "010"%char EmptyString)
        | None => http.ReqBody req = http.NoBody
        end)
     ∧ (has_header "Content-Type" req ↔ is_Some body)
     ∧ (is_Some body →
        Header_Get "Content-Type" (http.ReqHeader req) = "application/json"))
  ∧ (∀ (l : loc) (base u : URL),
       baseURL c = Some l → store w !! l = Some base →
       http.validMethod (if String.eqb method EmptyString then "GET" else method)
         = true →
       url_Parse (url_String (with_Path base (Path base +:+ path))) = inl u →
       (method ∉ ["GET"; "HEAD"; "OPTIONS"] →
        ∀ b, body = Some b → ∃ js, json.Marshal b = inl js) →
       ∃ (req : http.Request) (w' : World),
         NewRequest c method path body w = Returns (Some req, None) w'
         ∧ http.ReqURL req = u).
Proof.
  split.
  - intros req w' Hrun.
    destruct (baseURL c ≫= (store w !!.)) as [base|] eqn:Hbase;
      [|by rewrite NewRequest_panics in Hrun].
    destruct (baseURL c) as [l|] eqn:Hl; [|done]. simpl in Hbase.
    rewrite (NewRequest_run c method path body w l base Hl Hbase) in Hrun.
    simpl in Hrun.
    destruct (NewRequest_switch _ method body) as [made|err] eqn:Hmade; [|done].
    injection Hrun as <- <-. unfold has_header. simpl.
    rewrite NewRequest_headers_Accept, NewRequest_headers_User_Agent,
      NewRequest_headers_Authorization.
    do 3 (split; [done|]).
    unfold NewRequest_switch in Hmade. rewrite <- bodyless_methods.
    destruct (bodyless method).
    + apply http_NewRequest_inl in Hmade as (_ & _ & Hh & Hb).
      rewrite Hh, Hb.
      split; [done|]. split; [by intros []|].
      unfold Header_Get. rewrite NewRequest_headers_Content_Type.
      destruct body; split; try done; by intros [??].
    + split; [done|].
      unfold json.Encode in Hmade.
      destruct body as [b|].
      * destruct (json.Marshal b) as [js|err] eqn:Hjs; [|done].
        apply http_NewRequest_inl in Hmade as (_ & _ & Hh & Hb).
        rewrite Hh, Hb. split.
        { intros _. exists js. split; [done|]. by destruct js. }
        unfold Header_Get. rewrite NewRequest_headers_Content_Type. done.
      * apply http_NewRequest_inl in Hmade as (_ & _ & Hh & Hb).
        rewrite Hh, Hb. split; [done|].
        unfold Header_Get. rewrite NewRequest_headers_Content_Type.
        split; [|done]. split; by intros [??].
  - intros l base u Hl Hbase Hmethod Hparse Hjson.
    rewrite (NewRequest_run c method path body w l base Hl Hbase). simpl.
    assert (∀ buf, ∃ made,
              http_NewRequest method
                (url_String (with_Path base (Path base +:+ path))) buf
              = inl made ∧ http.ReqURL made = u) as Hhttp.
    { intros buf. unfold http_NewRequest, http.MethodGet. cbv zeta.
      rewrite Hmethod, Hparse. simpl. by eexists. }
    unfold NewRequest_switch.
    destruct (bodyless method) eqn:Hless.
    + destruct (Hhttp None) as (made & -> & Hu). by eexists _, _.
    + assert (method ∉ ["GET"; "HEAD"; "OPTIONS"]) as Hnot
        by (rewrite <- bodyless_methods; congruence).
      destruct body as [b|].
      * destruct (Hjson Hnot b eq_refl) as [js Hjs].
        unfold json.Encode. rewrite Hjs.
        destruct (Hhttp (Some (js +:+ String "010"%char EmptyString)))
          as (made & -> & Hu).
        by eexists _, _.
      * destruct (Hhttp (Some EmptyString)) as (made & -> & Hu).
        by eexists _, _.
Qed.

End Requests.

(** The sample client is what [getClient] makes. *)
Lemma getClient_sample :
  getClient (E:=Sample.env) "secret" sendingAPIURL Sample.world0
  = Returns (Sample.client1, None) Sample.world1.
Proof. vm_compute. reflexivity. Qed.

(** C4, as stated, fails: a GET request built with a body that is not
    nil has the header [Content-Type] and no body. *)
Lemma GET_with_body_has_content_type_and_no_body :
  ∃ (req : http.Request) (w' : World),
    NewRequest (E:=Sample.env) Sample.client1 "GET" "/send" (Some Sample.email)
      Sample.world1 = Returns (Some req, None) w'
    ∧ has_header "Content-Type" req
    ∧ has_body req = false
    ∧ ¬ (has_header "Content-Type" req ↔ has_body req = true).
Proof.
  eexists _, _. split; [vm_compute; reflexivity|].
  assert (has_header "Content-Type"
            (with_Header
               {| http.Method := "GET"; http.ReqURL := with_Path Sample.base1 "/api/send";
                  http.ReqHeader := ∅; http.ReqBody := http.NilBody |}
               (NewRequest_headers Sample.client1 (Some Sample.email) ∅))) as Hct.
  { unfold has_header. simpl. rewrite NewRequest_headers_Content_Type. by eexists. }
  split; [exact Hct|]. split; [reflexivity|].
  intros [Hiff _]. specialize (Hiff Hct). discriminate Hiff.
Qed.

(** C4 on the sample client: a POST request for /send with the sample
    email. *)
Lemma NewRequest_builds_sample :
  ∃ (req : http.Request) (w' : World),
    NewRequest (E:=Sample.env) Sample.client1 "POST" "/send" (Some Sample.email)
      Sample.world1 = Returns (Some req, None) w'
    ∧ Header_Get "Accept" (http.ReqHeader req) = "application/json"
    ∧ Header_Get "Authorization" (http.ReqHeader req) = "Bearer secret"
    ∧ has_header "Content-Type" req
    ∧ has_body req = true.
Proof.
  destruct (NewRequest_builds (E:=Sample.env) Sample.client1 "POST" "/send"
              (Some Sample.email) Sample.world1) as [Hprops Hreturns].
  destruct (Hreturns 1%positive Sample.base1
              (with_Path Sample.base1 "/api/send")) as (req & w' & Hrun & Hurl).
  - reflexivity.
  - reflexivity.
  - vm_compute. reflexivity.
  - vm_compute. reflexivity.
  - intros _ b [= <-]. eexists. reflexivity.
  - exists req, w'. split; [exact Hrun|].
    destruct (Hprops req w' Hrun) as (Ha & _ & Hauth & _ & Hbody & Hct & _).
    split; [exact Ha|]. split; [exact Hauth|].
    split; [apply Hct; by eexists|].
    destruct Hbody as (js & _ & Hb).
    + vm_compute. intros Hin. repeat (apply elem_of_cons in Hin as [Hin|Hin]; [discriminate Hin|]).
      by apply elem_of_nil in Hin.
    + unfold has_body. by rewrite Hb.
Defined.

(** * The state of the transport core *)

(** Whenever [NewRequest] returns, the base address in the store has the
    path of the request appended. *)
Lemma NewRequest_appends_to_base {E : Env} {B : Type} {MB : json.Marshaler B}
    (c : client) (method path : string) (body : option B) (w w' : World)
    (out : option http.Request * option error) :
  NewRequest c method path body w = Returns out w' →
  ∃ base, (core_state c w).1.2 = Some base
          ∧ (core_state c w').1.2 = Some (with_Path base (Path base +:+ path))
          ∧ wire w' = wire w.
Proof.
  intros Hrun. unfold core_state. simpl.
  destruct (baseURL c ≫= (store w !!.)) as [base|] eqn:Hbase;
    [|by rewrite NewRequest_panics in Hrun].
  destruct (baseURL c) as [l|] eqn:Hl; [|done]. simpl in Hbase.
  rewrite (NewRequest_run c method path body w l base Hl Hbase) in Hrun.
  simpl in Hrun. exists base. split; [done|].
  destruct (NewRequest_switch _ method body); injection Hrun as <- <-; simpl;
    by rewrite lookup_insert_eq.
Qed.

Lemma append_self (s t : string) : s = s +:+ t → t = EmptyString.
Proof.
  induction s as [|ch s IH]; simpl; [done|].
  intros [= Hs]. by apply IH.
Qed.

(** So [NewRequest] for a path that is not empty never leaves the store as
    it was. *)
Lemma NewRequest_changes_store {E : Env} {B : Type} {MB : json.Marshaler B}
    (c : client) (method path : string) (body : option B) (w w' : World)
    (out : option http.Request * option error) :
  NewRequest c method path body w = Returns out w' →
  path ≠ EmptyString → store w' ≠ store w.
Proof.
  intros Hrun Hpath Hstore.
  apply NewRequest_appends_to_base in Hrun as (base & Hw & Hw' & _).
  unfold core_state in Hw, Hw'. simpl in Hw, Hw'.
  rewrite Hstore, Hw in Hw'. injection Hw' as Hbase.
  destruct base as [scheme host p]. unfold with_Path in Hbase. simpl in Hbase.
  injection Hbase as Hp. by apply append_self in Hp.
Qed.

(** C5, on the code: [NewRequest] changes the base address of the
    client.  The client that [getClient] makes for the production API has
    the base path /api; after one [NewRequest] for /send its base path is
    /api/send, the key and the user agent being as before; and a second
    [NewRequest] for /send then asks for /api/send/send. *)
Theorem NewRequest_moves_base_address :
  getClient (E:=Sample.env) "secret" sendingAPIURL Sample.world0
    = Returns (Sample.client1, None) Sample.world1
  ∧ core_state Sample.client1 Sample.world1
    = ("secret", Some (with_Path Sample.base1 "/api"),
       "mailtrap-go/0.1.2 (linux amd64) go/go1.22.0")
  ∧ ∃ (req : http.Request) (w2 : World),
      NewRequest (E:=Sample.env) Sample.client1 "POST" "/send"
        (Some Sample.email) Sample.world1 = Returns (Some req, None) w2
      ∧ core_state Sample.client1 w2
        = ("secret", Some (with_Path Sample.base1 "/api/send"),
           "mailtrap-go/0.1.2 (linux amd64) go/go1.22.0")
      ∧ core_state Sample.client1 w2 ≠ core_state Sample.client1 Sample.world1
      ∧ ∃ (req' : http.Request) (w3 : World),
          NewRequest (E:=Sample.env) Sample.client1 "POST" "/send"
            (Some Sample.email) w2 = Returns (Some req', None) w3
          ∧ Path (http.ReqURL req) = "/api/send"
          ∧ Path (http.ReqURL req') = "/api/send/send".
Proof.
  split; [exact getClient_sample|]. split; [reflexivity|].
  eexists _, _. split; [vm_compute; reflexivity|].
  split; [reflexivity|]. split; [discriminate|].
  eexists _, _. split; [vm_compute; reflexivity|].
  split; reflexivity.
Qed.

(** * Executing a request *)

Section Executing.
Context {E : Env} {UE : json.Unmarshaler ErrorResponse}.

Lemma checkResponse_success (r : http.Response) :
  (200 ≤ http.StatusCode r ≤ 299)%Z → checkResponse r = None.
Proof.
  intros [Hlo Hhi]. unfold checkResponse.
  apply Z.leb_le in Hlo, Hhi. by rewrite Hlo, Hhi.
Qed.

(** [Do], run with a client that has a transport: the request goes over
    the network, and the answer is classified and decoded. *)
Lemma Do_run {T : Type} {UT : json.Unmarshaler T} (c : client) (hc : http.Client)
    (req : http.Request) (v : Destination T) (w : World) :
  httpClient c = Some hc →
  Do c (Some req) v w =
    match Client_Do hc (wire w) req with
    | inr err => Returns (v, None, Some err) (sent req w)
    | inl resp =>
        match checkResponse resp with
        | Some err => Returns (v, Some {| Response_http := resp |}, Some err) (sent req w)
        | None =>
            match v with
            | nilDest => Returns (v, Some {| Response_http := resp |}, None) (sent req w)
            | _ =>
                Returns
                  ((decode v (Some (http.Body resp))
                           (Header_Get "Accept" (http.ReqHeader req))).1,
                   Some {| Response_http := resp |},
                   (decode v (Some (http.Body resp))
                           (Header_Get "Accept" (http.ReqHeader req))).2)
                  (sent req w)
            end
        end
    end.
Proof.
  intros Hc. unfold Do, bind, roundTrip. rewrite Hc. fold (sent req w).
  destruct (Client_Do hc (wire w) req) as [resp|err]; [|done].
  destruct (checkResponse resp); [done|].
  destruct v; [done| |]; by destruct (decode _ _ _).
Qed.

(** Whenever [Do] returns, its request went over the network. *)
Lemma Do_extends_wire {T : Type} {UT : json.Unmarshaler T} (c : client)
    (req : option http.Request) (v : Destination T) (w w' : World)
    (out : Destination T * option Response * option error) :
  Do c req v w = Returns out w' →
  ∃ r, req = Some r ∧ wire w' = r :: wire w.
Proof.
  intros Hrun.
  destruct (httpClient c) as [hc|] eqn:Hc; [|by unfold Do in Hrun; rewrite Hc in Hrun].
  destruct req as [r|]; [|by unfold Do in Hrun; rewrite Hc in Hrun].
  exists r. split; [done|].
  rewrite (Do_run c hc r v w Hc) in Hrun.
  destruct (Client_Do hc (wire w) r) as [resp|err]; [|by injection Hrun as _ <-].
  destruct (checkResponse resp); [by injection Hrun as _ <-|].
  destruct v; by injection Hrun as _ <-.
Qed.

(** C6, amended.  When the answer has a status from 200 to 299, [Do]
    decodes by destination: a string destination gets the whole body as
    it is (when it can be read); a typed destination gets what the JSON
    decoder makes of the body, and its error, when the [Accept] header of
    the request is [application/json], and otherwise [Do] fails with the
    error whose text is [decode() undefined response type]; with a nil
    destination the body is left alone and there is no error.  In each
    case the response is returned and the request went over the
    network. *)
Theorem Do_decodes_by_destination {T : Type} {UT : json.Unmarshaler T}
    (c : client) (hc : http.Client) (req : http.Request) (v : Destination T)
    (w : World) (resp : http.Response) :
  httpClient c = Some hc →
  Client_Do hc (wire w) req = inl resp →
  (200 ≤ http.StatusCode resp ≤ 299)%Z →
  let response := Some {| Response_http := resp |} in
  let accept := Header_Get "Accept" (http.ReqHeader req) in
  match v with
  | stringDest _ =>
      http.failure (http.Body resp) = None →
      Do c (Some req) v w
      = Returns (stringDest (http.data (http.Body resp)), response, None)
                (sent req w)
  | typedDest t =>
      (accept = "application/json" →
       Do c (Some req) v w
       = Returns (typedDest (json.Decode (http.Body resp) t).1, response,
                  (json.Decode (http.Body resp) t).2) (sent req w))
      ∧ (accept ≠ "application/json" →
         Do c (Some req) v w
         = Returns (v, response,
                    Some (errors_New "decode() undefined response type"))
                   (sent req w))
  | nilDest =>
      Do c (Some req) v w = Returns (nilDest, response, None) (sent req w)
  end.
Proof.
  intros Hc Hdo Hstatus response accept.
  rewrite (Do_run c hc req v w Hc), Hdo, (checkResponse_success _ Hstatus).
  destruct v as [|s|t]; [done| |].
  - intros Hread. unfold decode, io_ReadAll. by rewrite Hread.
  - fold accept. unfold decode, defaultAccept. split.
    + intros ->. simpl. by destruct (json.Decode _ t).
    + intros Hne. by rewrite (proj2 (String.eqb_neq _ _) Hne).
Qed.

(** C7.  [checkResponse] returns no error for a status from 200 to 299.
    For any other status it returns an [ErrorResponse] on the response
    it was given; when the body is read, is not empty and decodes as
    JSON, the error is what the decoder made; when the decoder fails, its
    message is the body as it is; and [Do] returns this error with the
    response.  The decoder is taken not to replace the response that the
    error wraps. *)
Theorem checkResponse_classifies {T : Type} {UT : json.Unmarshaler T}
    (r : http.Response) (c : client) (hc : http.Client) (req : http.Request)
    (v : Destination T) (w : World) :
  (∀ data e, ErrorResponse_Response (json.Unmarshal data e).1
             = ErrorResponse_Response e) →
  let blank := {| ErrorResponse_Response := r;
                  ErrorResponse_Message := EmptyString |} in
  let data := http.data (http.Body r) in
  ((200 ≤ http.StatusCode r ≤ 299)%Z → checkResponse r = None)
  ∧ (¬ (200 ≤ http.StatusCode r ≤ 299)%Z →
     ∃ e, checkResponse r = Some (providerError e)
          ∧ ErrorResponse_Response e = r
          ∧ (http.failure (http.Body r) = None → data ≠ EmptyString →
             (json.Unmarshal data blank).2 = None →
             e = (json.Unmarshal data blank).1)
          ∧ (http.failure (http.Body r) = None →
             (json.Unmarshal data blank).2 ≠ None →
             ErrorResponse_Message e = data)
          ∧ (httpClient c = Some hc → Client_Do hc (wire w) req = inl r →
             Do c (Some req) v w
             = Returns (v, Some {| Response_http := r |}, Some (providerError e))
                       (sent req w))).
Proof.
  intros Hkeep blank data. split; [apply checkResponse_success|].
  intros Hstatus.
  destruct (checkResponse r) as [err|] eqn:Hcheck.
  2:{ unfold checkResponse in Hcheck.
      replace ((200 <=? http.StatusCode r)%Z && (http.StatusCode r <=? 299)%Z)
        with false in Hcheck by (symmetry; apply andb_false_iff; lia).
      by destruct (io_ReadAll _). }
  assert (httpClient c = Some hc → Client_Do hc (wire w) req = inl r →
          Do c (Some req) v w = Returns (v, Some {| Response_http := r |}, Some err)
                                        (sent req w)) as HDo.
  { intros Hc Hdo. by rewrite (Do_run c hc req v w Hc), Hdo, Hcheck. }
  unfold checkResponse in Hcheck.
  replace ((200 <=? http.StatusCode r)%Z && (http.StatusCode r <=? 299)%Z)
    with false in Hcheck by (symmetry; apply andb_false_iff; lia).
  unfold io_ReadAll in Hcheck. fold blank data in Hcheck.
  destruct (http.failure (http.Body r)) as [why|]; simpl in Hcheck.
  { injection Hcheck as <-. by exists blank. }
  destruct data as [|ch rest] eqn:Hdata; simpl in Hcheck.
  { injection Hcheck as <-. by exists blank. }
  rewrite <- Hdata in *. clear Hdata.
  pose proof (Hkeep data blank) as Hr.
  destruct (json.Unmarshal data blank) as [decoded [failed|]];
    simpl in *; injection Hcheck as <-; eexists; (split; [reflexivity|]); simpl.
  - by repeat split.
  - by repeat split.
Qed.

End Executing.

(** C6, as stated, fails: for a typed destination and a request without
    the [Accept] header, the text of the error is not
    [decode: unsupported response type]. *)
Lemma unsupported_destination_message_differs :
  ∃ (v : Destination SendEmailResponse) (res : option Response) (err : error)
    (w' : World),
    Do (E:=Sample.env) (UE:=Sample.UE) (UT:=Sample.US) Sample.client1
       (Some Sample.plain_request)
       (typedDest zero_SendEmailResponse) Sample.world1
    = Returns (v, res, Some err) w'
    ∧ http.StatusCode Sample.answer_200 = 200%Z
    ∧ res = Some {| Response_http := Sample.answer_200 |}
    ∧ err = errors_New "decode() undefined response type"
    ∧ err ≠ errors_New "decode: unsupported response type".
Proof.
  eexists _, _, _, _. split; [vm_compute; reflexivity|].
  split; [reflexivity|]. split; [reflexivity|]. split; [reflexivity|].
  discriminate.
Qed.

(** C6 on the sample server: a string destination gets the payload. *)
Lemma Do_decodes_by_destination_sample :
  Do (E:=Sample.env) (UE:=Sample.UE) (UT:=Sample.US) Sample.client1
     (Some Sample.plain_request) (stringDest EmptyString) Sample.world1
  = Returns (stringDest Sample.send_payload,
             Some {| Response_http := Sample.answer_200 |}, None)
            (sent Sample.plain_request Sample.world1).
Proof.
  apply (Do_decodes_by_destination (E:=Sample.env) (UE:=Sample.UE)
           (UT:=Sample.US)
           Sample.client1 {| http.Timeout := 30000000000 |}
           Sample.plain_request (stringDest EmptyString) Sample.world1
           Sample.answer_200).
  - reflexivity.
  - vm_compute. reflexivity.
  - simpl. lia.
  - reflexivity.
Defined.

Lemma Sample_Unmarshal_keeps_Response (data : string) (e : ErrorResponse) :
  ErrorResponse_Response (json.Unmarshal (Unmarshaler:=Sample.UE) data e).1
  = ErrorResponse_Response e.
Proof.
  simpl. unfold Sample.Unmarshal_ErrorResponse.
  by destruct (String.eqb data Sample.error_payload).
Qed.

(** C7 on the answer 404 of the sample server, whose body is no JSON. *)
Lemma checkResponse_classifies_sample :
  ∃ e : ErrorResponse,
    checkResponse (UE:=Sample.UE) Sample.answer_404 = Some (providerError e)
    ∧ ErrorResponse_Response e = Sample.answer_404
    ∧ ErrorResponse_Message e = "404 page not found".
Proof.
  destruct (checkResponse_classifies (E:=Sample.env) (UE:=Sample.UE)
              (UT:=Sample.US)
              Sample.answer_404 Sample.client1 {| http.Timeout := 30000000000 |}
              Sample.plain_request nilDest Sample.world1
              Sample_Unmarshal_keeps_Response) as [_ Hout].
  destruct Hout as (e & Hcheck & Hresp & _ & Hmsg & _).
  - simpl. lia.
  - exists e. split; [exact Hcheck|]. split; [exact Hresp|].
    apply Hmsg; [reflexivity|]. vm_compute. discriminate.
Defined.

(** * The two sending clients *)

Section Clients.
Context {E : Env} {UE : json.Unmarshaler ErrorResponse}
        {US : json.Unmarshaler SendEmailResponse}.

(** C2, amended.  For a nil request, [Send] of both clients returns no
    response and the error whose text is
    [request `SendEmailRequest` is mandatory], in every world and without
    changing it.  So no request was built and none went over the
    network: [NewRequest] for a path that is not empty, when it returns,
    has changed the store, and [Do], when it returns, has put its request
    on the wire. *)
Theorem nil_request_is_refused :
  refused None (errors_New "request `SendEmailRequest` is mandatory")
  ∧ (∀ (c : client) (method path : string) (body : option SendEmailRequest)
       (w w' : World) (out : option http.Request * option error),
       NewRequest c method path body w = Returns out w' →
       path ≠ EmptyString → store w' ≠ store w)
  ∧ (∀ (c : client) (req : option http.Request)
       (v : Destination SendEmailResponse) (w w' : World)
       (out : Destination SendEmailResponse * option Response * option error),
       Do c req v w = Returns out w' →
       ∃ r, req = Some r ∧ wire w' = r :: wire w).
Proof.
  split; [intros p s w; split; reflexivity|].
  split.
  - intros c method path body w w' out. apply NewRequest_changes_store.
  - intros c req v w w' out. apply Do_extends_wire.
Qed.

Lemma ProductionSendingClient_Send_spec (p : ProductionSendingClient)
    (request : option SendEmailRequest) (w : World) :
  ProductionSendingClient_Send p request w
  = send_spec (Production_client p) Direct request w.
Proof.
  unfold ProductionSendingClient_Send, send_spec. destruct request as [r|]; [|done].
  destruct (validate r); [done|]. unfold bind, http.MethodPost. simpl.
  destruct (NewRequest _ _ _ _ w) as [[req [err|]] w1|]; simpl; [done| |done].
  destruct (Do _ _ _ w1) as [[[v res] [err|]] w2|]; simpl; done.
Qed.

Lemma SandboxSendingClient_Send_spec (s : SandboxSendingClient)
    (request : option SendEmailRequest) (w : World) :
  SandboxSendingClient_Send s request w
  = send_spec (Sandbox_client s) (Sandbox (inboxID s)) request w.
Proof.
  unfold SandboxSendingClient_Send, send_spec. destruct request as [r|]; [|done].
  destruct (validate r); [done|]. unfold bind, http.MethodPost. simpl.
  destruct (NewRequest _ _ _ _ w) as [[req [err|]] w1|]; simpl; [done| |done].
  destruct (Do _ _ _ w1) as [[[v res] [err|]] w2|]; simpl; done.
Qed.

End Clients.

(** * The code on the requests of the tests *)

(** C2, as stated, fails: the text of the error for a nil request is
    not [request is mandatory]. *)
Lemma nil_request_message_differs :
  ¬ refused (E:=Sample.env) (UE:=Sample.UE) (US:=Sample.US)
      None (errors_New "request is mandatory").
Proof.
  intros Hrefused.
  destruct (Hrefused {| Production_client := Sample.client1 |} Sample.sandbox1
              Sample.world1) as [Hproduction _].
  discriminate Hproduction.
Qed.

(** C1 on the requests of the tests, one for each rule. *)
Lemma first_broken_rule_decides_tests :
  validate Sample.notValidEmailFrom = Some (errors_New "'from' address is required")
  ∧ validate Sample.notValidEmailTo = Some (errors_New "'to' address is required")
  ∧ validate Sample.notValidEmailToEntry
    = Some (errors_New "'email' is required in 'to' address")
  ∧ validate Sample.notValidAttachment
    = Some (errors_New
              "'content' is required in attachment; 'filename' is required in attachment")
  ∧ validate Sample.missedSubject = Some (errors_New "'subject' is required")
  ∧ validate Sample.textOrHTMLRequired
    = Some (errors_New "one of 'text' or 'html' is required")
  ∧ validate Sample.categoryTooLong
    = Some (errors_New "'category' is greater than 255 chars").
Proof.
  split; [|split; [|split; [|split; [|split; [|split]]]]].
  - apply (first_broken_rule_decides (E:=Sample.env) (UE:=Sample.UE)
             (US:=Sample.US) Sample.notValidEmailFrom FromEmail); by_computation.
  - apply (first_broken_rule_decides (E:=Sample.env) (UE:=Sample.UE)
             (US:=Sample.US) Sample.notValidEmailTo ToNonEmpty); by_computation.
  - apply (first_broken_rule_decides (E:=Sample.env) (UE:=Sample.UE)
             (US:=Sample.US) Sample.notValidEmailToEntry ToEntryEmail);
      by_computation.
  - apply (first_broken_rule_decides (E:=Sample.env) (UE:=Sample.UE)
             (US:=Sample.US) Sample.notValidAttachment AttachmentFields);
      by_computation.
  - apply (first_broken_rule_decides (E:=Sample.env) (UE:=Sample.UE)
             (US:=Sample.US) Sample.missedSubject SubjectNonEmpty); by_computation.
  - apply (first_broken_rule_decides (E:=Sample.env) (UE:=Sample.UE)
             (US:=Sample.US) Sample.textOrHTMLRequired TextOrHTML); by_computation.
  - apply (first_broken_rule_decides (E:=Sample.env) (UE:=Sample.UE)
             (US:=Sample.US) Sample.categoryTooLong CategoryLength); by_computation.
Defined.

(** C3 on the request of the test with one empty attachment. *)
Lemma attachment_problems_are_accumulated_test :
  errMsg_at_end Sample.notValidAttachment
    = [content_required; filename_required]
  ∧ validate Sample.notValidAttachment
    = Some (errors_New
              "'content' is required in attachment; 'filename' is required in attachment").
Proof.
  destruct (attachment_problems_are_accumulated (E:=Sample.env) (UE:=Sample.UE)
              (US:=Sample.US) Sample.notValidAttachment)
    as (_ & _ & _ & Hboth & Hjoined).
  - by_computation.
  - discriminate.
  - split.
    + apply (Hboth Sample.zero_EmailAttachment); reflexivity.
    + apply Hjoined. discriminate.
Defined.

(** C10 on the sample email, with copies that have no email and with
    headers and custom variables. *)
Lemma validation_reads_only_checked_fields_sample :
  validate
    (with_unchecked Sample.email
       (Some [Sample.address EmptyString]) (Some [Sample.address EmptyString])
       (Some {["X-Message-Source" := "mail.example.com"]})
       (Some {["user_id" := "1"; "batch_id" := "2"]}) (Some []))
  = None.
Proof.
  apply (validation_reads_only_checked_fields Sample.email).
  - by_computation.
  - constructor.
Defined.

(** C9, as stated, fails: the zero request is not encoded as the empty
    object. *)
Lemma zero_request_is_not_empty_object :
  json.Marshal zero_SendEmailRequest ≠ inl "{}".
Proof. vm_compute. discriminate. Qed.

(** C9, amended.  The encoding of the zero request has every field:
    [from] as an object with an empty email and name, the lists and maps
    as null, the four strings empty.  No tag has omitempty, so no request
    at all is encoded as the empty object. *)
Theorem zero_request_has_every_field :
  json.Marshal zero_SendEmailRequest = inl zero_request_json
  ∧ ∀ r : SendEmailRequest, json.Marshal r ≠ inl "{}".
Proof.
  split; [vm_compute; reflexivity|].
  intros r Hjson. unfold json.Marshal, Marshaler_SendEmailRequest in Hjson.
  injection Hjson as Hjson.
  unfold json.of_SendEmailRequest, json.object, json.quote in Hjson.
  simpl in Hjson. discriminate Hjson.
Qed.

(** * More on validation *)


Lemma range_To_emails (to to' : list EmailAddress) :
  Email <$> to = Email <$> to' → range_To to = range_To to'.
Proof.
  revert to'. induction to as [|a to IH]; intros [|b to']; try done.
  intros [= Hab Hrest]. simpl. rewrite Hab. by rewrite (IH to' Hrest).
Qed.

Lemma range_Attachments_fields (l l' : list EmailAttachment) (errMsg : list string) :
  (λ a, (Content a, Filename a)) <$> l = (λ a, (Content a, Filename a)) <$> l' →
  foldl range_Attachments_body errMsg l = foldl range_Attachments_body errMsg l'.
Proof.
  revert l' errMsg. induction l as [|a l IH]; intros [|b l'] errMsg; try done.
  intros [= Hc Hf Hrest]. simpl.
  unfold range_Attachments_body at 2 4. rewrite Hc, Hf. by apply IH.
Qed.

(** X2.  [validate] reads the checked fields only: two requests with the
    same email of the sender, emails of the recipients, contents and
    filenames of the attachments, subject, text, HTML and category get
    the same result, whatever their names, copies, headers and custom
    variables, and whether their empty lists are nil or not. *)
Theorem validate_reads_checked_fields (r r' : SendEmailRequest) :
  checked_fields r = checked_fields r' → validate r = validate r'.
Proof.
  unfold checked_fields. intros [= Hfrom Hto Hatt Hsubject Htext Hhtml Hcat].
  unfold validate, len.
  rewrite Hfrom, Hsubject, Htext, Hhtml, Hcat.
  rewrite (range_To_emails _ _ Hto), (range_Attachments_fields _ _ [] Hatt).
  assert (length (elems (To r)) = length (elems (To r'))) as ->
    by (by rewrite <- (length_fmap Email), Hto, length_fmap).
  assert (length (elems (Attachments r)) = length (elems (Attachments r'))) as ->
    by (by rewrite <- (length_fmap (λ a, (Content a, Filename a))), Hatt,
          length_fmap).
  done.
Qed.

(** * A send, step by step *)

Section SendRun.
Context {E : Env} {UE : json.Unmarshaler ErrorResponse}
        {US : json.Unmarshaler SendEmailResponse}.

(** The headers of a request with a body, as a map. *)
Lemma NewRequest_headers_with_body {B : Type} (core : client) (b : B) :
  NewRequest_headers core (Some b) ∅
  = {[ "Authorization" := ["Bearer " +:+ apiKey core];
       "User-Agent" := [userAgent core];
       "Accept" := ["application/json"];
       "Content-Type" := ["application/json"] ]}.
Proof.
  unfold NewRequest_headers, Header_Set, defaultAccept. by rewrite insert_empty.
Qed.

(** What [NewRequest] makes of a POST with a send request as body. *)
Lemma NewRequest_switch_POST (target : URL) (r : SendEmailRequest) :
  NewRequest_switch target "POST" (Some r)
  = match url_Parse (url_String target) with
    | inl u =>
        inl {| http.Method := "POST"; http.ReqURL := u; http.ReqHeader := ∅;
               http.ReqBody :=
                 http.BufferBody
                   (json.of_SendEmailRequest r +:+ String "010"%char EmptyString) |}
    | inr err => inr err
    end.
Proof.
  unfold NewRequest_switch, http_NewRequest. simpl.
  by destruct (url_Parse (url_String target)).
Qed.

(** A send of a valid request by a usable client, as a function of what
    the parser and the other side answer. *)
Lemma send_spec_run (core : client) (t : Target) (r : SendEmailRequest)
    (w : World) (l : loc) (base : URL) (hc : http.Client) :
  validate r = None →
  baseURL core = Some l → store w !! l = Some base → httpClient core = Some hc →
  send_spec core t (Some r) w =
    let w1 := moved l base (target_path t) w in
    match url_Parse (url_String (with_Path base (Path base +:+ target_path t))) with
    | inr err => Returns (None, None, Some err) w1
    | inl u =>
        let req := send_request core u r in
        match Client_Do hc (wire w) req with
        | inr err => Returns (None, None, Some err) (sent req w1)
        | inl resp =>
            let response := Some {| Response_http := resp |} in
            match checkResponse resp with
            | Some err => Returns (None, response, Some err) (sent req w1)
            | None =>
                match json.Decode (http.Body resp) zero_SendEmailResponse with
                | (_, Some err) => Returns (None, response, Some err) (sent req w1)
                | (decoded, None) => Returns (Some decoded, response, None) (sent req w1)
                end
            end
        end
    end.
Proof.
  intros Hvalid Hl Hbase Hhc. unfold send_spec. rewrite Hvalid. unfold bind.
  rewrite (NewRequest_run core "POST" (target_path t) (Some r) w l base Hl Hbase).
  cbv zeta. fold (moved l base (target_path t) w).
  rewrite NewRequest_switch_POST.
  destruct (url_Parse _) as [u|err]; [|done]. cbv beta iota. simpl fst. simpl snd.
  unfold with_Header. simpl http.ReqHeader. rewrite NewRequest_headers_with_body.
  simpl. fold (send_request core u r).
  rewrite (Do_run core hc _ _ _ Hhc). simpl wire.
  destruct (Client_Do hc (wire w) (send_request core u r)) as [resp|err]; [|done].
  destruct (checkResponse resp); [done|].
  unfold decode. 
  replace (Header_Get "Accept" (http.ReqHeader (send_request core u r)))
    with defaultAccept by done.
  rewrite String.eqb_refl.
  by destruct (json.Decode _ _) as [decoded [err|]].
Qed.

End SendRun.

Section SendOutcomes.
Context {E : Env} {UE : json.Unmarshaler ErrorResponse}
        {US : json.Unmarshaler SendEmailResponse}.

Lemma Send_at_spec (core : client) (t : Target)
    (request : option SendEmailRequest) (w : World) :
  Send_at core t request w = send_spec core t request w.
Proof.
  destruct t as [|inbox_id]; simpl.
  - apply ProductionSendingClient_Send_spec.
  - apply SandboxSendingClient_Send_spec.
Qed.

(** C8.  Apart from the path, [Send] of the production client and [Send]
    of the sandbox client are one function of the client and the
    request: both refuse what [validate] refuses, with its error and
    without a trace, and both post a valid request and turn the answer
    into the same result, by [send_result].  The path is /send for the
    one and /send/ followed by the inbox in decimal for the other, but it
    is appended to the base address as the sends before have left it:
    the first send of a client posts to its base address followed by the
    path, and leaves the path appended to the base address, so that the
    second send posts to the base address followed by the path twice. *)
Theorem repeated_Send_appends_its_path
    (core : client) (t : Target) (r : SendEmailRequest) (w : World)
    (l : loc) (base u1 u2 : URL) (hc : http.Client) :
  validate r = None →
  baseURL core = Some l → store w !! l = Some base → httpClient core = Some hc →
  let path := target_path t in
  let base1 := with_Path base (Path base +:+ path) in
  let base2 := with_Path base ((Path base +:+ path) +:+ path) in
  url_Parse (url_String base1) = inl u1 →
  url_Parse (url_String base2) = inl u2 →
  let req1 := send_request core u1 r in
  let req2 := send_request core u2 r in
  let w1 := sent req1 (moved l base path w) in
  let w2 := sent req2 (moved l base1 path w1) in
  (∀ r' err, validate r' = Some err → refused (Some r') err)
  ∧ Send_at core t (Some r) w
    = Returns (send_result (Client_Do hc (wire w) req1)) w1
  ∧ Send_at core t (Some r) w1
    = Returns (send_result (Client_Do hc (wire w1) req2)) w2
  ∧ store w2 !! l = Some base2
  ∧ wire w2 = req2 :: req1 :: wire w.
Proof.
  intros Hvalid Hl Hbase Hhc path base1 base2 Hu1 Hu2 req1 req2 w1 w2.
  assert (∀ (w0 : World) (base0 u : URL),
            store w0 !! l = Some base0 →
            url_Parse (url_String (with_Path base0 (Path base0 +:+ path))) = inl u →
            Send_at core t (Some r) w0
            = Returns (send_result (Client_Do hc (wire w0) (send_request core u r)))
                      (sent (send_request core u r) (moved l base0 path w0)))
    as Hsend.
  { intros w0 base0 u Hbase0 Hu.
    rewrite Send_at_spec,
      (send_spec_run core t r w0 l base0 hc Hvalid Hl Hbase0 Hhc).
    cbv zeta. fold path. rewrite Hu. unfold send_result.
    destruct (Client_Do _ _ _) as [resp|err]; [|done].
    destruct (checkResponse resp); [done|].
    by destruct (json.Decode _ _) as [decoded [err|]]. }
  assert (store w1 !! l = Some base1) as Hbase1
    by (simpl; apply lookup_insert_eq).
  split; [intros r' err; apply refused_by_validate|].
  split; [by apply Hsend|].
  split; [by apply Hsend|].
  split; [simpl; apply lookup_insert_eq|reflexivity].
Qed.

(** X3.  On an answer with a status of success, [Send] returns what the
    JSON decoder makes of the body. *)
Theorem Send_on_success (core : client) (t : Target) (r : SendEmailRequest)
    (w : World) (l : loc) (base u : URL) (hc : http.Client)
    (resp : http.Response) :
  validate r = None →
  baseURL core = Some l → store w !! l = Some base → httpClient core = Some hc →
  url_Parse (url_String (with_Path base (Path base +:+ target_path t))) = inl u →
  Client_Do hc (wire w) (send_request core u r) = inl resp →
  is_2xx resp →
  Send_at core t (Some r) w
  = Returns
      (match json.Decode (http.Body resp) zero_SendEmailResponse with
       | (decoded, None) => (Some decoded, Some {| Response_http := resp |}, None)
       | (_, Some err) => (None, Some {| Response_http := resp |}, Some err)
       end)
      (sent (send_request core u r) (moved l base (target_path t) w)).
Proof.
  intros Hvalid Hl Hbase Hhc Hu Hdo Hstatus.
  rewrite Send_at_spec, (send_spec_run core t r w l base hc Hvalid Hl Hbase Hhc).
  cbv zeta. rewrite Hu, Hdo, (checkResponse_success _ Hstatus).
  by destruct (json.Decode _ _) as [decoded [err|]].
Qed.

(** Outside the statuses of success, [checkResponse] returns an
    [ErrorResponse]. *)
Lemma checkResponse_failure (resp : http.Response) :
  ¬ is_2xx resp → ∃ e, checkResponse resp = Some (providerError e).
Proof.
  intros Hstatus. unfold is_2xx in Hstatus. unfold checkResponse.
  replace ((200 <=? http.StatusCode resp)%Z && (http.StatusCode resp <=? 299)%Z)
    with false by (symmetry; apply andb_false_iff; lia).
  destruct (io_ReadAll _) as [data [err|]]; [by eexists|].
  destruct (0 <? String.length data)%nat; [|by eexists].
  destruct (json.Unmarshal _ _) as [decoded [err|]]; by eexists.
Qed.

(** X4.  On an answer with another status, [Send] returns the response
    and an [ErrorResponse], and no decoded value: the decoder of the send
    response is not run. *)
Theorem Send_on_provider_error (core : client) (t : Target)
    (r : SendEmailRequest) (w : World) (l : loc) (base u : URL)
    (hc : http.Client) (resp : http.Response) :
  validate r = None →
  baseURL core = Some l → store w !! l = Some base → httpClient core = Some hc →
  url_Parse (url_String (with_Path base (Path base +:+ target_path t))) = inl u →
  Client_Do hc (wire w) (send_request core u r) = inl resp →
  ¬ is_2xx resp →
  ∃ e, checkResponse resp = Some (providerError e)
       ∧ Send_at core t (Some r) w
         = Returns (None, Some {| Response_http := resp |}, Some (providerError e))
                   (sent (send_request core u r) (moved l base (target_path t) w)).
Proof.
  intros Hvalid Hl Hbase Hhc Hu Hdo Hstatus.
  destruct (checkResponse_failure resp Hstatus) as [e He].
  exists e. split; [done|].
  rewrite Send_at_spec, (send_spec_run core t r w l base hc Hvalid Hl Hbase Hhc).
  cbv zeta. by rewrite Hu, Hdo, He.
Qed.

(** X5.  An error of the transport is returned as it is, with no
    response: the request went over the network and nothing came back. *)
Theorem Send_on_transport_error (core : client) (t : Target)
    (r : SendEmailRequest) (w : World) (l : loc) (base u : URL)
    (hc : http.Client) (err : error) :
  validate r = None →
  baseURL core = Some l → store w !! l = Some base → httpClient core = Some hc →
  url_Parse (url_String (with_Path base (Path base +:+ target_path t))) = inl u →
  Client_Do hc (wire w) (send_request core u r) = inr err →
  Send_at core t (Some r) w
  = Returns (None, None, Some err)
            (sent (send_request core u r) (moved l base (target_path t) w)).
Proof.
  intros Hvalid Hl Hbase Hhc Hu Hdo.
  rewrite Send_at_spec, (send_spec_run core t r w l base hc Hvalid Hl Hbase Hhc).
  cbv zeta. by rewrite Hu, Hdo.
Qed.

(** A response comes back from [Do] whenever no error does. *)
Lemma Do_no_error_response {T : Type} {UT : json.Unmarshaler T} (c : client)
    (req : option http.Request) (v v' : Destination T) (w w' : World)
    (res : option Response) :
  Do c req v w = Returns (v', res, None) w' → is_Some res.
Proof.
  intros Hrun.
  destruct (httpClient c) as [hc|] eqn:Hc; [|by unfold Do in Hrun; rewrite Hc in Hrun].
  destruct req as [r|]; [|by unfold Do in Hrun; rewrite Hc in Hrun].
  rewrite (Do_run c hc r v w Hc) in Hrun.
  destruct (Client_Do hc (wire w) r) as [resp|err]; [|done].
  destruct (checkResponse resp); [done|].
  destruct v; inversion Hrun; by eexists.
Qed.

(** X6.  [Send] returns a decoded value exactly when it returns no
    error, and then a response too. *)
Theorem Send_value_iff_no_error (core : client) (t : Target)
    (request : option SendEmailRequest) (w w' : World)
    (value : option SendEmailResponse) (res : option Response)
    (err : option error) :
  Send_at core t request w = Returns (value, res, err) w' →
  (is_Some value ↔ err = None) ∧ (err = None → is_Some res).
Proof.
  rewrite Send_at_spec. unfold send_spec.
  assert (∀ (e : error) (any : option Response),
            (is_Some (@None SendEmailResponse) ↔ Some e = None)
            ∧ (Some e = None → is_Some any)) as Hfailed.
  { intros e any. split; [split|]; [by intros [??]|done|done]. }
  destruct request as [r|]; [|intros [= <- <- <- _]; apply Hfailed].
  destruct (validate r); [intros [= <- <- <- _]; apply Hfailed|].
  unfold bind.
  destruct (NewRequest _ _ _ _ w) as [[req [e|]] w1|]; simpl;
    [intros [= <- <- <- _]; apply Hfailed| |done].
  destruct (Do _ _ _ w1) as [[[v res'] [e|]] w2|] eqn:HDo; simpl;
    [intros [= <- <- <- _]; apply Hfailed| |done].
  intros [= <- <- <- _]. apply Do_no_error_response in HDo.
  split; [split|]; by eauto.
Qed.

(** X7.  With a usable client [Send] returns, whatever the request and
    the answers, and the client is usable afterwards. *)
Theorem Send_is_safe (core : client) (t : Target)
    (request : option SendEmailRequest) (w : World) :
  usable core w →
  ∃ out w', Send_at core t request w = Returns out w' ∧ usable core w'.
Proof.
  intros Huse. pose proof Huse as [[base Hbase] [hc Hhc]].
  destruct (baseURL core) as [l|] eqn:Hl; [|done]. simpl in Hbase.
  assert (∀ req, usable core (moved l base (target_path t) w)
                 ∧ usable core (sent req (moved l base (target_path t) w)))
    as Hkept.
  { intros req. unfold usable. rewrite Hl, Hhc. simpl.
    rewrite lookup_insert_eq. by split. }
  rewrite Send_at_spec.
  destruct request as [r|]; [|by eexists _, _].
  destruct (validate r) as [e|] eqn:Hvalid.
  { unfold send_spec. rewrite Hvalid. by eexists _, _. }
  rewrite (send_spec_run core t r w l base hc Hvalid Hl Hbase Hhc). cbv zeta.
  destruct (url_Parse _) as [u|e]; [|eexists _, _; split; [done|apply (Hkept (send_request core base r))]].
  destruct (Client_Do _ _ _) as [resp|e]; [|eexists _, _; split; [done|apply Hkept]].
  destruct (checkResponse resp); [eexists _, _; split; [done|apply Hkept]|].
  destruct (json.Decode _ _) as [decoded [e|]];
    eexists _, _; (split; [done|apply Hkept]).
Qed.

End SendOutcomes.

(** * Making clients *)

Section Making.
Context {E : Env}.

(** [getClient], run: a parse error is returned with the zero client and
    nothing is allocated; otherwise the client points to a new location
    that holds the parsed address with the suffix appended to its path. *)
Lemma getClient_run (key address : string) (w : World) :
  getClient key address w =
    match url_Parse address with
    | inr err => Returns (zero_client, Some err) w
    | inl parsed =>
        let l := fresh (dom (store w)) in
        Returns ({| apiKey := key; baseURL := Some l; userAgent := userAgent_var;
                    httpClient := Some {| http.Timeout := 30 * time_Second |} |},
                 None)
                {| store := <[l := with_Path parsed (Path parsed +:+ apiSuffix)]>
                              (store w);
                   wire := wire w |}
    end.
Proof.
  unfold getClient. destruct (url_Parse address) as [parsed|err]; [|done].
  unfold bind, new_URL, deref, assign_Path. simpl.
  rewrite lookup_insert_eq. simpl. rewrite lookup_insert_eq.
  by rewrite insert_insert_eq.
Qed.

Lemma fresh_location (w : World) : store w !! fresh (dom (store w)) = None.
Proof. apply not_elem_of_dom, is_fresh. Qed.

(** X8.  A client made by [getClient] has the key it was given, the user
    agent of the package, a transport with a timeout of thirty seconds
    and a base address of its own: a location that was free, holding the
    parsed address with [api] appended to its path.  Nothing else is
    written and nothing is sent; the client is usable. *)
Theorem getClient_makes (key address : string) (w : World) (parsed : URL) :
  url_Parse address = inl parsed →
  ∃ (l : loc) (c : client) (w' : World),
    getClient key address w = Returns (c, None) w'
    ∧ store w !! l = None
    ∧ baseURL c = Some l
    ∧ store w' = <[l := with_Path parsed (Path parsed +:+ "api")]> (store w)
    ∧ wire w' = wire w
    ∧ apiKey c = key
    ∧ userAgent c = "mailtrap-go/0.1.2 (" +:+ GOOS +:+ " " +:+ GOARCH
                    +:+ ") go/" +:+ runtime_Version
    ∧ httpClient c = Some {| http.Timeout := 30000000000 |}
    ∧ usable c w'.
Proof.
  intros Hparse. rewrite getClient_run, Hparse. cbv zeta.
  eexists _, _, _. split; [reflexivity|]. simpl.
  split; [apply fresh_location|]. repeat (split; [reflexivity|]).
  unfold usable. simpl. rewrite lookup_insert_eq. by split.
Qed.

(** X9.  When the address does not parse, [getClient] returns the error
    of the parser with the zero client, and leaves the world as it was.
    The zero client has no base address and no transport: [NewRequest]
    and [Do] panic on it. *)
Theorem getClient_parse_error {B T : Type} {MB : json.Marshaler B}
    {UE : json.Unmarshaler ErrorResponse} {UT : json.Unmarshaler T}
    (key address : string) (w : World) (err : error)
    (method path : string) (body : option B) (req : option http.Request)
    (v : Destination T) (w' : World) :
  url_Parse address = inr err →
  getClient key address w = Returns (zero_client, Some err) w
  ∧ NewRequest zero_client method path body w' = Panics
  ∧ Do zero_client req v w' = Panics.
Proof.
  intros Hparse. rewrite getClient_run, Hparse. by repeat split.
Qed.

(** X10.  The testing client is made as [getClient] makes a client for the
    testing address, but for the transport: it has the default client of
    net/http, which has no timeout. *)
Theorem NewTestingClient_as_getClient (key : string) (w : World) :
  match getClient key testingAPIURL w with
  | Returns (c, None) w' =>
      NewTestingClient key w
      = Returns (Some {| Testing_client :=
                           {| apiKey := apiKey c; baseURL := baseURL c;
                              userAgent := userAgent c;
                              httpClient := Some {| http.Timeout := 0 |} |} |},
                 None) w'
      ∧ httpClient c = Some {| http.Timeout := 30000000000 |}
  | Returns (_, Some err) w' => NewTestingClient key w = Returns (None, Some err) w'
  | Panics => False
  end.
Proof.
  rewrite getClient_run. unfold NewTestingClient.
  destruct (url_Parse testingAPIURL) as [parsed|err]; [|done].
  cbv zeta. split; [|done].
  unfold bind, new_URL, deref, assign_Path. simpl.
  rewrite lookup_insert_eq. simpl. rewrite lookup_insert_eq.
  by rewrite insert_insert_eq.
Qed.

End Making.

(** * More on building requests *)

Lemma append_assoc (a b c : string) : (a +:+ b) +:+ c = a +:+ (b +:+ c).
Proof.
  induction a as [|ch a IH]; [done|].
  change (String ch ((a +:+ b) +:+ c) = String ch (a +:+ (b +:+ c))).
  by rewrite IH.
Qed.

Section MoreBuilding.
Context {E : Env} {B : Type} {MB : json.Marshaler B}.

(** Whenever [NewRequest] returns, the world is the one it was given
    with the path appended to the base address; and it returns a request
    or an error, not both and not neither. *)
Lemma NewRequest_moves (c : client) (method path : string) (body : option B)
    (w w' : World) (req : option http.Request) (err : option error) :
  NewRequest c method path body w = Returns (req, err) w' →
  (∃ l base, baseURL c = Some l ∧ store w !! l = Some base
             ∧ w' = moved l base path w)
  ∧ (is_Some req ↔ err = None).
Proof.
  intros Hrun.
  destruct (baseURL c ≫= (store w !!.)) as [base|] eqn:Hbase;
    [|by rewrite NewRequest_panics in Hrun].
  destruct (baseURL c) as [l|] eqn:Hl; [|done]. simpl in Hbase.
  rewrite (NewRequest_run c method path body w l base Hl Hbase) in Hrun.
  cbv zeta in Hrun. fold (moved l base path w) in Hrun.
  destruct (NewRequest_switch _ method body); injection Hrun as <- <- <-.
  - split; [by exists l, base|]. by split.
  - split; [by exists l, base|]. split; [by intros [??]|done].
Qed.

(** X11.  Whenever [NewRequest] returns, with a request or with an error,
    it has appended the path to the base address of the client and has
    done nothing else: every other location holds what it held and
    nothing was sent.  It returns a request or an error, never both and
    never neither. *)
Theorem NewRequest_effect (c : client) (method path : string) (body : option B)
    (w w' : World) (req : option http.Request) (err : option error) :
  NewRequest c method path body w = Returns (req, err) w' →
  (∃ l base, baseURL c = Some l ∧ store w !! l = Some base
             ∧ store w' !! l = Some (with_Path base (Path base +:+ path))
             ∧ ∀ l', l' ≠ l → store w' !! l' = store w !! l')
  ∧ wire w' = wire w
  ∧ (is_Some req ↔ err = None).
Proof.
  intros Hrun.
  apply NewRequest_moves in Hrun as [(l & base & Hl & Hbase & ->) Hshape].
  split; [|by split].
  exists l, base. split; [done|]. split; [done|]. simpl. split.
  - by rewrite lookup_insert_eq.
  - intros l' Hl'. by rewrite lookup_insert_ne.
Qed.

(** X12.  Calls of [NewRequest] on one client add up: the second request
    is for the base address followed by both paths. *)
Theorem NewRequest_twice (c : client) (method1 path1 method2 path2 : string)
    (body1 body2 : option B) (w w1 w2 : World)
    (out1 out2 : option http.Request * option error) :
  NewRequest c method1 path1 body1 w = Returns out1 w1 →
  NewRequest c method2 path2 body2 w1 = Returns out2 w2 →
  ∃ base, (core_state c w).1.2 = Some base
    ∧ (core_state c w2).1.2
      = Some (with_Path base (Path base +:+ path1 +:+ path2))
    ∧ ∀ req, out2.1 = Some req →
        url_Parse (url_String (with_Path base (Path base +:+ path1 +:+ path2)))
        = inl (http.ReqURL req).
Proof.
  intros Hrun1 Hrun2. destruct out1 as [req1 err1], out2 as [req2 err2].
  apply NewRequest_moves in Hrun1 as [(l & base & Hl & Hbase & ->) _].
  assert (store (moved l base path1 w) !! l
          = Some (with_Path base (Path base +:+ path1))) as Hbase1
    by (simpl; by rewrite lookup_insert_eq).
  rewrite (NewRequest_run c method2 path2 body2 _ l _ Hl Hbase1) in Hrun2.
  simpl in Hrun2.
  exists base. unfold core_state. rewrite Hl. simpl. rewrite Hbase.
  split; [done|].
  assert (with_Path (with_Path base (Path base +:+ path1))
            ((Path base +:+ path1) +:+ path2)
          = with_Path base (Path base +:+ path1 +:+ path2)) as Hpath
    by (unfold with_Path; simpl; by rewrite append_assoc).
  rewrite Hpath in Hrun2.
  destruct (NewRequest_switch _ method2 body2) as [made|err] eqn:Hmade;
    injection Hrun2 as <- <- <-; simpl; rewrite lookup_insert_eq;
    (split; [done|]); [|done].
  intros req [= <-]. simpl.
  unfold NewRequest_switch in Hmade.
  destruct (bodyless method2).
  - by apply http_NewRequest_inl in Hmade as (_ & Hu & _).
  - destruct (match body2 with Some b => json.Encode b | None => inl "" end);
      [|done].
    by apply http_NewRequest_inl in Hmade as (_ & Hu & _).
Qed.

(** X13.  The errors of [NewRequest], in their order: for a method other
    than GET, HEAD and OPTIONS the error of the encoder comes first;
    then a method that is no token is refused; then the error of the
    parser is returned.  In each case no request is returned and the
    base address has moved all the same. *)
Theorem NewRequest_errors (c : client) (method path : string) (body : option B)
    (w : World) (l : loc) (base : URL) :
  baseURL c = Some l → store w !! l = Some base →
  let target := with_Path base (Path base +:+ path) in
  let encoded := bodyless method = true ∨ body = None
                 ∨ ∃ b js, body = Some b ∧ json.Marshal b = inl js in
  let token := http.validMethod
                 (if String.eqb method EmptyString then "GET" else method) in
  (∀ b err, bodyless method = false → body = Some b → json.Marshal b = inr err →
     NewRequest c method path body w = Returns (None, Some err) (moved l base path w))
  ∧ (encoded → token = false →
     NewRequest c method path body w
     = Returns (None, Some (libraryError "net/http: invalid method"))
               (moved l base path w))
  ∧ (∀ err, encoded → token = true → url_Parse (url_String target) = inr err →
     NewRequest c method path body w = Returns (None, Some err) (moved l base path w)).
Proof.
  intros Hl Hbase target encoded token.
  rewrite (NewRequest_run c method path body w l base Hl Hbase). cbv zeta.
  fold (moved l base path w). fold target.
  assert (∀ buf, token = false →
            http_NewRequest method (url_String target) buf
            = inr (libraryError "net/http: invalid method")) as Hbad.
  { intros buf Htoken. unfold http_NewRequest, http.MethodGet. cbv zeta.
    fold token. by rewrite Htoken. }
  assert (∀ buf err, token = true → url_Parse (url_String target) = inr err →
            http_NewRequest method (url_String target) buf = inr err) as Hparse.
  { intros buf err Htoken Herr. unfold http_NewRequest, http.MethodGet. cbv zeta.
    fold token. by rewrite Htoken, Herr. }
  unfold NewRequest_switch. split; [|split].
  - intros b err Hless -> Hjson. rewrite Hless. unfold json.Encode.
    by rewrite Hjson.
  - intros Henc Htoken.
    destruct (bodyless method) eqn:Hless; [by rewrite Hbad|].
    destruct Henc as [?|[->|(b & js & -> & Hjs)]]; [done|by rewrite Hbad|].
    unfold json.Encode. by rewrite Hjs, Hbad.
  - intros err Henc Htoken Herr.
    destruct (bodyless method) eqn:Hless; [by rewrite (Hparse _ err)|].
    destruct Henc as [?|[->|(b & js & -> & Hjs)]];
      [done|by rewrite (Hparse _ err)|].
    unfold json.Encode. by rewrite Hjs, (Hparse _ err).
Qed.

(** X14.  An empty method is no GET for [NewRequest] and GET for net/http:
    the request is a GET that carries the encoded body, ended by a
    newline, and the four headers, [Content-Type] among them. *)
Theorem NewRequest_empty_method (c : client) (path : string) (b : B)
    (w : World) (l : loc) (base u : URL) (js : string) :
  baseURL c = Some l → store w !! l = Some base →
  url_Parse (url_String (with_Path base (Path base +:+ path))) = inl u →
  json.Marshal b = inl js →
  NewRequest c EmptyString path (Some b) w
  = Returns
      (Some {| http.Method := "GET";
               http.ReqURL := u;
               http.ReqHeader :=
                 {[ "Authorization" := ["Bearer " +:+ apiKey c];
                    "User-Agent" := [userAgent c];
                    "Accept" := ["application/json"];
                    "Content-Type" := ["application/json"] ]};
               http.ReqBody :=
                 http.BufferBody (js +:+ String "010"%char EmptyString) |},
       None)
      (moved l base path w).
Proof.
  intros Hl Hbase Hu Hjs.
  rewrite (NewRequest_run c EmptyString path (Some b) w l base Hl Hbase).
  cbv zeta. fold (moved l base path w).
  unfold NewRequest_switch, json.Encode. simpl bodyless. cbv iota.
  rewrite Hjs. unfold http_NewRequest. simpl. rewrite Hu. simpl.
  unfold with_Header. simpl. rewrite NewRequest_headers_with_body.
  by destruct js.
Qed.

End MoreBuilding.

Section Sharing.
Context {E : Env} {B : Type} {MB : json.Marshaler B}.

(** X15.  Two clients made one after the other do not share their base
    address: a [NewRequest] on either leaves the state of the other as
    it is, in every world. *)
Theorem clients_have_their_own_base (key1 address1 key2 address2 : string)
    (w w1 w2 : World) (c1 c2 : client) :
  getClient key1 address1 w = Returns (c1, None) w1 →
  getClient key2 address2 w1 = Returns (c2, None) w2 →
  baseURL c1 ≠ baseURL c2
  ∧ ∀ (method path : string) (body : option B) (w3 w4 : World)
      (out : option http.Request * option error),
      (NewRequest c2 method path body w3 = Returns out w4 →
       core_state c1 w4 = core_state c1 w3)
      ∧ (NewRequest c1 method path body w3 = Returns out w4 →
         core_state c2 w4 = core_state c2 w3).
Proof.
  rewrite !getClient_run.
  destruct (url_Parse address1) as [parsed1|]; [|done].
  destruct (url_Parse address2) as [parsed2|]; [|done].
  cbv zeta. intros [= <- <-] [= <- <-]. simpl.
  set (l1 := fresh (dom (store w))).
  set (l2 := fresh (dom (<[l1 := _]> (store w)))).
  assert (l1 ≠ l2) as Hne.
  { intros Heq. pose proof (is_fresh (dom (<[l1 := with_Path parsed1
                                   (Path parsed1 +:+ apiSuffix)]> (store w)))) as Hfresh.
    fold l2 in Hfresh. rewrite <- Heq in Hfresh. apply Hfresh.
    apply elem_of_dom. rewrite lookup_insert_eq. by eexists. }
  split; [congruence|].
  intros method path body w3 w4 [req err]. split; intros Hrun;
    apply NewRequest_moves in Hrun as [(l & base & [= <-] & _ & ->) _];
    unfold core_state; simpl; by rewrite lookup_insert_ne.
Qed.

(** X16.  The key given to [getClient] and the user agent of the package
    are what every request of the client carries. *)
Theorem key_and_user_agent_reach_requests (key address : string)
    (w w1 : World) (c : client) (method path : string) (body : option B)
    (w2 w3 : World) (req : http.Request) :
  getClient key address w = Returns (c, None) w1 →
  NewRequest c method path body w2 = Returns (Some req, None) w3 →
  Header_Get "Authorization" (http.ReqHeader req) = "Bearer " +:+ key
  ∧ Header_Get "User-Agent" (http.ReqHeader req)
    = "mailtrap-go/0.1.2 (" +:+ GOOS +:+ " " +:+ GOARCH +:+ ") go/"
      +:+ runtime_Version.
Proof.
  rewrite getClient_run. destruct (url_Parse address) as [parsed|]; [|done].
  cbv zeta. intros [= Hc _] Hrun.
  assert (apiKey c = key ∧ userAgent c = userAgent_var) as [Hkey Hagent]
    by (by rewrite <- Hc).
  destruct (baseURL c ≫= (store w2 !!.)) as [base|] eqn:Hbase;
    [|by rewrite NewRequest_panics in Hrun].
  destruct (baseURL c) as [l|] eqn:Hl; [|done]. simpl in Hbase.
  rewrite (NewRequest_run c method path body w2 l base Hl Hbase) in Hrun.
  simpl in Hrun.
  destruct (NewRequest_switch _ method body); [|done].
  injection Hrun as <- _. simpl.
  by rewrite NewRequest_headers_Authorization, NewRequest_headers_User_Agent,
    Hkey, Hagent.
Qed.

End Sharing.

(** * More on executing requests *)

Section MoreExecuting.
Context {E : Env} {UE : json.Unmarshaler ErrorResponse}.

(** X17.  For a status outside 200 to 299 and a body that cannot be read
    or is empty, the error of [checkResponse] is the response with an
    empty message, whatever the JSON decoder: it is not run. *)
Theorem checkResponse_without_body (r : http.Response) :
  ¬ is_2xx r →
  is_Some (http.failure (http.Body r)) ∨ http.data (http.Body r) = EmptyString →
  checkResponse r
  = Some (providerError {| ErrorResponse_Response := r;
                           ErrorResponse_Message := EmptyString |}).
Proof.
  intros Hstatus Hbody. unfold is_2xx in Hstatus. unfold checkResponse.
  replace ((200 <=? http.StatusCode r)%Z && (http.StatusCode r <=? 299)%Z)
    with false by (symmetry; apply andb_false_iff; lia).
  unfold io_ReadAll. destruct Hbody as [[why ->]| ->]; simpl; [done|].
  by destruct (http.failure (http.Body r)).
Qed.

(** X18.  [Do] writes the destination for an answer with a status of
    success only: after an error of the transport (then there is no
    response) or an answer with another status, the destination holds
    what it held, and there is an error.  A nil destination stays nil.
    [Do] never writes the store. *)
Theorem Do_writes_on_success_only {T : Type} {UT : json.Unmarshaler T}
    (c : client) (req : option http.Request) (v v' : Destination T)
    (w w' : World) (res : option Response) (err : option error) :
  Do c req v w = Returns (v', res, err) w' →
  store w' = store w
  ∧ (res = None → v' = v ∧ is_Some err)
  ∧ (∀ resp, res = Some {| Response_http := resp |} → ¬ is_2xx resp →
       v' = v ∧ is_Some err)
  ∧ (v = nilDest → v' = nilDest).
Proof.
  intros Hrun.
  destruct (httpClient c) as [hc|] eqn:Hc; [|by unfold Do in Hrun; rewrite Hc in Hrun].
  destruct req as [r|]; [|by unfold Do in Hrun; rewrite Hc in Hrun].
  rewrite (Do_run c hc r v w Hc) in Hrun.
  destruct (Client_Do hc (wire w) r) as [resp|e].
  2:{ injection Hrun as <- <- <- <-.
      split; [done|]. split; [by eexists|]. split; [done|done]. }
  destruct (checkResponse resp) as [e|] eqn:Hcheck.
  { injection Hrun as <- <- <- <-.
    split; [done|]. split; [done|]. split; [by eexists|done]. }
  assert (is_2xx resp) as Hok.
  { unfold is_2xx. destruct (decide (200 ≤ http.StatusCode resp ≤ 299)%Z) as [|Hout];
      [done|].
    apply checkResponse_failure in Hout as [e He]. congruence. }
  assert (res = Some {| Response_http := resp |} ∧ store w' = store w
          ∧ (v = nilDest → v' = nilDest)) as (-> & Hstore & Hnil).
  { destruct v; inversion Hrun; by subst. }
  split; [done|]. split; [done|]. split; [|done].
  intros resp' [= <-] Hnot. by destruct Hnot.
Qed.

End MoreExecuting.

(** * The example program *)

Lemma N_of_digit (d : N) :
  (d < 10)%N → N_of_ascii (pretty_N_char d) = (48 + d)%N.
Proof.
  intros Hd.
  assert (d = 0 ∨ d = 1 ∨ d = 2 ∨ d = 3 ∨ d = 4 ∨ d = 5 ∨ d = 6 ∨ d = 7
          ∨ d = 8 ∨ d = 9)%N as Hcases by lia.
  repeat (destruct Hcases as [->|Hcases]; [reflexivity|]). by subst.
Qed.

(** Reading back the digits that the printer wrote before [s]. *)
Lemma ParseUint_loop_pretty (x : N) :
  ∃ p : N, (0 < p)%N ∧
    ∀ (s : string) (n : N),
      (n * p + x ≤ maxUint64)%N →
      ParseUint_loop n (pretty_N_go x s) = ParseUint_loop (n * p + x) s.
Proof.
  induction (N.lt_wf_0 x) as [x _ IH].
  destruct (decide (x = 0)%N) as [->|Hx].
  { exists 1%N. split; [lia|]. intros s n _. rewrite pretty_N_go_0.
    f_equal. lia. }
  destruct (IH (x `div` 10)%N) as (p & Hp & Hread).
  { apply N.div_lt; lia. }
  exists (p * 10)%N. split; [lia|]. intros s n Hmax.
  pose proof (N.div_mod x 10 ltac:(lia)) as Hdiv.
  pose proof (N.mod_lt x 10 ltac:(lia)) as Hmod.
  rewrite pretty_N_go_step by lia.
  assert (n * (p * 10) = 10 * (n * p))%N as Hnp by ring.
  rewrite Hnp in *. unfold maxUint64 in *.
  change (18446744073709551615 / 10 + 1)%N with 1844674407370955162%N.
  pose proof (Hread (String (pretty_N_char (x `mod` 10)) s) n) as Hstep.
  clear Hread IH Hnp. revert Hmax Hdiv Hmod Hstep.
  generalize (n * p)%N (x `div` 10)%N (x `mod` 10)%N.
  intros np q d Hmax Hdiv Hd Hstep.
  rewrite Hstep by lia.
  simpl ParseUint_loop. rewrite N_of_digit by done. unfold maxUint64.
  change (18446744073709551615 `div` 10 + 1)%N with 1844674407370955162%N.
  replace ((48 <=? 48 + d)%N && (48 + d <=? 57)%N) with true
    by (symmetry; apply andb_true_iff; split; apply N.leb_le; lia).
  replace (1844674407370955162 <=? np + q)%N with false
    by (symmetry; apply N.leb_gt; lia).
  replace ((np + q) * 10 + (48 + d - 48))%N with (10 * np + x)%N by lia.
  by replace (18446744073709551615 <? 10 * np + x)%N with false
    by (symmetry; apply N.ltb_ge; lia).
Qed.

(** The printer starts a positive number with a digit. *)
Lemma pretty_N_go_head (x : N) (s : string) :
  (0 < x)%N →
  ∃ d rest, (d < 10)%N ∧ pretty_N_go x s = String (pretty_N_char d) rest.
Proof.
  revert s. induction (N.lt_wf_0 x) as [x _ IH]. intros s Hx.
  rewrite pretty_N_go_step by done.
  destruct (decide (x `div` 10 = 0)%N) as [->|Hdiv].
  - rewrite pretty_N_go_0. exists (x `mod` 10)%N, s.
    split; [apply N.mod_lt; lia|done].
  - apply IH; [by apply N.div_lt|by apply N.neq_0_lt_0].
Qed.

Lemma digit_is_no_sign (d : N) :
  (d < 10)%N →
  Ascii.eqb (pretty_N_char d) "+" = false ∧ Ascii.eqb (pretty_N_char d) "-" = false.
Proof.
  intros Hd.
  assert (d = 0 ∨ d = 1 ∨ d = 2 ∨ d = 3 ∨ d = 4 ∨ d = 5 ∨ d = 6 ∨ d = 7
          ∨ d = 8 ∨ d = 9)%N as Hcases by lia.
  repeat (destruct Hcases as [->|Hcases]; [by split|]). by subst.
Qed.

Lemma ParseUint_printed (x : N) :
  (x ≤ maxUint64)%N → ParseUint_loop 0 (pretty_N_go x EmptyString) = inl x.
Proof.
  intros Hx. destruct (ParseUint_loop_pretty x) as (p & _ & Hread).
  by rewrite Hread by lia.
Qed.

Lemma ParseInt_round_trip (n : Z) :
  ((- 2 ^ 63 ≤ n < 2 ^ 63)%Z → strconv_ParseInt (fmt_int n) = inl n)
  ∧ ∀ s, strconv_ParseInt s = inl n → (- 2 ^ 63 ≤ n < 2 ^ 63)%Z.
Proof.
  split.
  - intros Hn. unfold fmt_int, pretty, pretty_Z.
    destruct n as [|x|x]; [done| |].
    + unfold pretty, pretty_positive, pretty, pretty_N.
      rewrite decide_False by done.
      destruct (pretty_N_go_head (N.pos x) EmptyString ltac:(lia))
        as (d & rest & Hd & Hhead).
      pose proof (ParseUint_printed (N.pos x) ltac:(unfold maxUint64; lia)) as Hread.
      rewrite Hhead in *. unfold strconv_ParseInt.
      destruct (digit_is_no_sign d Hd) as [-> ->]. simpl orb. cbv iota.
      rewrite Hread. simpl negb. simpl andb.
      by replace (2 ^ 63 <=? N.pos x)%N with false
        by (symmetry; apply N.leb_gt; lia).
    + unfold pretty, pretty_positive, pretty, pretty_N.
      rewrite decide_False by done.
      destruct (pretty_N_go_head (N.pos x) EmptyString ltac:(lia))
        as (d & rest & Hd & Hhead).
      pose proof (ParseUint_printed (N.pos x) ltac:(unfold maxUint64; lia)) as Hread.
      rewrite Hhead in *.
      change ("-" +:+ String (pretty_N_char d) rest)
        with (String "-" (String (pretty_N_char d) rest)).
      unfold strconv_ParseInt. simpl Ascii.eqb. simpl orb. cbv iota.
      rewrite Hread. simpl negb. simpl andb.
      by replace (2 ^ 63 <? N.pos x)%N with false
        by (symmetry; apply N.ltb_ge; lia).
  - intros s. unfold strconv_ParseInt. destruct s as [|c rest]; [done|].
    destruct (if Ascii.eqb c "+" || Ascii.eqb c "-" then rest else String c rest);
      [done|].
    destruct (ParseUint_loop 0 _) as [un|[|]]; [|done|done].
    destruct (Ascii.eqb c "-"); simpl negb; simpl andb.
    + destruct (2 ^ 63 <? un)%N eqn:Hun; [done|]. intros [= <-].
      apply N.ltb_ge in Hun. lia.
    + destruct (2 ^ 63 <=? un)%N eqn:Hun; [done|]. intros [= <-].
      apply N.leb_gt in Hun. lia.
Qed.

(** X19.  [strconv.ParseInt] reads back what [fmt] prints of a 64-bit
    integer, and what it reads is a 64-bit integer. *)
Theorem ParseInt_reads_what_fmt_prints :
  (∀ n : Z, (- 2 ^ 63 ≤ n < 2 ^ 63)%Z → strconv_ParseInt (fmt_int n) = inl n)
  ∧ (∀ (s : string) (n : Z),
       strconv_ParseInt s = inl n → (- 2 ^ 63 ≤ n < 2 ^ 63)%Z).
Proof.
  split.
  - intros n. apply ParseInt_round_trip.
  - intros s n. apply ParseInt_round_trip.
Qed.

Section Program.
Context {E : Env} {UE : json.Unmarshaler ErrorResponse}
        {US : json.Unmarshaler SendEmailResponse}.

(** The first send of a valid request on the client that [getClient] has
    just made: the request for the parsed address with [api] and the
    path of the target appended goes over the network, once. *)
Lemma first_send (key address : string) (t : Target) (r : SendEmailRequest)
    (w : World) (parsed u : URL) :
  url_Parse address = inl parsed →
  validate r = None →
  url_Parse (url_String
               (with_Path parsed ((Path parsed +:+ "api") +:+ target_path t)))
  = inl u →
  ∃ core w1 out w2,
    getClient key address w = Returns (core, None) w1
    ∧ apiKey core = key ∧ userAgent core = userAgent_var
    ∧ wire w1 = wire w
    ∧ send_spec core t (Some r) w1 = Returns out w2
    ∧ wire w2 = send_request core u r :: wire w
    ∧ (is_Some out.1.1 ∨ is_Some out.2).
Proof.
  intros Hparse Hvalid Hu. rewrite getClient_run, Hparse. cbv zeta.
  set (l := fresh (dom (store w))).
  pose (core := {| apiKey := key; baseURL := Some l; userAgent := userAgent_var;
                   httpClient := Some {| http.Timeout := 30 * time_Second |} |}).
  pose (base := with_Path parsed (Path parsed +:+ apiSuffix)).
  pose (w1 := {| store := <[l := base]> (store w); wire := wire w |}).
  exists core, w1.
  assert (store w1 !! l = Some base) as Hbase
    by (simpl; by rewrite lookup_insert_eq).
  rewrite (send_spec_run core t r w1 l base _ Hvalid eq_refl Hbase eq_refl).
  cbv zeta.
  change (with_Path base (Path base +:+ target_path t))
    with (with_Path parsed ((Path parsed +:+ "api") +:+ target_path t)).
  rewrite Hu. simpl wire.
  destruct (Client_Do _ _ _) as [resp|err].
  2:{ eexists _, _. repeat (split; [reflexivity|]). right. by eexists. }
  destruct (checkResponse resp).
  { eexists _, _. repeat (split; [reflexivity|]). right. by eexists. }
  destruct (json.Decode _ _) as [decoded [err|]];
    eexists _, _; repeat (split; [reflexivity|]); [right|left]; by eexists.
Qed.

(** X20.  The first send of a client just made by [NewSendingClient] or
    by [NewSandboxSendingClient] asks for the parsed address of the API
    followed by [api] and by /send, or /send/ and the inbox. *)
Theorem fresh_clients_send_to_the_API (key : string) (inbox : Z)
    (r : SendEmailRequest) (w : World) (parsed u : URL) :
  validate r = None →
  (url_Parse sendingAPIURL = inl parsed →
   url_Parse (url_String (with_Path parsed ((Path parsed +:+ "api") +:+ "/send")))
   = inl u →
   ∃ sc w1 out w2,
     NewSendingClient key w = Returns (Some sc, None) w1
     ∧ ProductionSendingClient_Send sc (Some r) w1 = Returns out w2
     ∧ wire w2 = send_request (Production_client sc) u r :: wire w
     ∧ apiKey (Production_client sc) = key)
  ∧ (url_Parse sandboxAPIURL = inl parsed →
     url_Parse (url_String
                  (with_Path parsed
                     ((Path parsed +:+ "api") +:+ "/send/" +:+ fmt_int inbox)))
     = inl u →
     ∃ sc w1 out w2,
       NewSandboxSendingClient key inbox w = Returns (Some sc, None) w1
       ∧ SandboxSendingClient_Send sc (Some r) w1 = Returns out w2
       ∧ wire w2 = send_request (Sandbox_client sc) u r :: wire w
       ∧ apiKey (Sandbox_client sc) = key).
Proof.
  intros Hvalid. split; intros Hparse Hu.
  - destruct (first_send key sendingAPIURL Direct r w parsed u Hparse Hvalid Hu)
      as (core & w1 & out & w2 & Hget & Hkey & _ & _ & Hsend & Hwire & _).
    exists {| Production_client := core |}, w1, out, w2.
    unfold NewSendingClient, bind. rewrite Hget.
    by rewrite ProductionSendingClient_Send_spec.
  - destruct (first_send key sandboxAPIURL (Sandbox inbox) r w parsed u
                Hparse Hvalid Hu)
      as (core & w1 & out & w2 & Hget & Hkey & _ & _ & Hsend & Hwire & _).
    exists {| Sandbox_client := core; inboxID := inbox |}, w1, out, w2.
    unfold NewSandboxSendingClient, bind. rewrite Hget.
    by rewrite SandboxSendingClient_Send_spec.
Qed.

(** X21.  Without a key, without an inbox, or with an inbox that is no
    64-bit decimal integer, the command stops with the message for it
    before it makes a client: nothing is allocated and nothing is sent. *)
Theorem main_stops_without_settings (environ : gmap string string) (w : World) :
  let key := os_Getenv environ "MAILTRAP_API_KEY" in
  let inbox := os_Getenv environ "MAILTRAP_INBOX_ID" in
  (key = EmptyString →
   main environ w = Returns (Fatal "No API key present" None) w)
  ∧ (key ≠ EmptyString → inbox = EmptyString →
     main environ w = Returns (Fatal "No mailbox ID present" None) w)
  ∧ (∀ err, key ≠ EmptyString → strconv_ParseInt inbox = inr err →
       inbox ≠ EmptyString →
       main environ w
       = Returns (Fatal "Mailbox ID should be a valid integer: " (Some err)) w).
Proof.
  intros key inbox. unfold main. fold key. fold inbox.
  split; [|split].
  - by intros ->.
  - intros Hkey ->. by rewrite (eqb_empty_false _ Hkey).
  - intros err Hkey Hparse Hinbox.
    by rewrite (eqb_empty_false _ Hkey), (eqb_empty_false _ Hinbox), Hparse.
Qed.



End Program.

(** * The added properties on samples *)

(** X2 on the samples. *)
Lemma validate_reads_checked_fields_sample :
  validate
    (with_unchecked Sample.notValidAttachment
       (Some [Sample.address EmptyString]) None None None
       (Some [ {| Content := EmptyString; AttachType := "text/html";
                  Filename := EmptyString; Disposition := "inline";
                  ContentID := "logo" |} ]))
  = validate Sample.notValidAttachment.
Proof.
  apply validate_reads_checked_fields. reflexivity.
Defined.

(** X3 on the samples. *)
Lemma Send_on_success_sample :
  Send_at (E:=Sample.env) (UE:=Sample.UE) (US:=Sample.US)
    Sample.client1 Direct (Some Sample.email) Sample.world1
  = Returns
      (Some {| Success := true; MessageIDs := Some ["0c7fd939"] |},
       Some {| Response_http := Sample.answer_200 |}, None)
      (sent (send_request Sample.client1 (with_Path Sample.base1 "/api/send")
                          Sample.email)
            (moved 1%positive Sample.base1 "/send" Sample.world1)).
Proof.
  apply (Send_on_success (E:=Sample.env) (UE:=Sample.UE) (US:=Sample.US)
           Sample.client1 Direct Sample.email Sample.world1 1%positive
           Sample.base1 (with_Path Sample.base1 "/api/send")
           {| http.Timeout := 30000000000 |} Sample.answer_200).
  - vm_compute. reflexivity.
  - reflexivity.
  - reflexivity.
  - reflexivity.
  - vm_compute. reflexivity.
  - vm_compute. reflexivity.
  - unfold is_2xx. simpl. lia.
Defined.

(** X4 on the samples. *)
Lemma Send_on_provider_error_sample :
  ∃ e : ErrorResponse,
    checkResponse (UE:=Sample.UE) Sample.answer_404 = Some (providerError e)
    ∧ Send_at (E:=Sample.env) (UE:=Sample.UE) (US:=Sample.US)
        Sample.client1 (Sandbox 42) (Some Sample.email) Sample.world1
      = Returns (None, Some {| Response_http := Sample.answer_404 |},
                 Some (providerError e))
          (sent (send_request Sample.client1
                   (with_Path Sample.base1 "/api/send/42") Sample.email)
                (moved 1%positive Sample.base1 "/send/42" Sample.world1)).
Proof.
  apply (Send_on_provider_error (E:=Sample.env) (UE:=Sample.UE) (US:=Sample.US)
           Sample.client1 (Sandbox 42) Sample.email Sample.world1 1%positive
           Sample.base1 (with_Path Sample.base1 "/api/send/42")
           {| http.Timeout := 30000000000 |} Sample.answer_404).
  - vm_compute. reflexivity.
  - reflexivity.
  - reflexivity.
  - reflexivity.
  - vm_compute. reflexivity.
  - vm_compute. reflexivity.
  - unfold is_2xx. simpl. lia.
Defined.

(** X5 on the samples. *)
Lemma Send_on_transport_error_sample :
  Send_at (E:=Sample2.offline) (UE:=Sample.UE) (US:=Sample.US)
    Sample.client1 Direct (Some Sample.email) Sample.world1
  = Returns (None, None, Some Sample2.refused_connection)
      (sent (send_request Sample.client1 (with_Path Sample.base1 "/api/send")
                          Sample.email)
            (moved 1%positive Sample.base1 "/send" Sample.world1)).
Proof.
  apply (Send_on_transport_error (E:=Sample2.offline) (UE:=Sample.UE)
           (US:=Sample.US) Sample.client1 Direct Sample.email Sample.world1
           1%positive Sample.base1 (with_Path Sample.base1 "/api/send")
           {| http.Timeout := 30000000000 |} Sample2.refused_connection).
  - vm_compute. reflexivity.
  - reflexivity.
  - reflexivity.
  - reflexivity.
  - vm_compute. reflexivity.
  - reflexivity.
Defined.

(** X6 on the samples. *)
Lemma Send_value_iff_no_error_sample :
  ∃ value res err w',
    Send_at (E:=Sample.env) (UE:=Sample.UE) (US:=Sample.US)
      Sample.client1 Direct (Some Sample.email) Sample.world1
    = Returns (value, res, err) w'
    ∧ (is_Some value ↔ err = None) ∧ (err = None → is_Some res).
Proof.
  eexists _, _, _, _. split; [vm_compute; reflexivity|].
  apply (Send_value_iff_no_error (E:=Sample.env) (UE:=Sample.UE) (US:=Sample.US)
           Sample.client1 Direct (Some Sample.email) Sample.world1
           (sent (send_request Sample.client1 (with_Path Sample.base1 "/api/send")
                               Sample.email)
                 (moved 1%positive Sample.base1 "/send" Sample.world1))).
  vm_compute. reflexivity.
Defined.

(** X7 on the samples. *)
Lemma Send_is_safe_sample :
  ∃ out w',
    Send_at (E:=Sample2.offline) (UE:=Sample.UE) (US:=Sample.US)
      Sample.client1 (Sandbox 42) (Some Sample.email) Sample.world1
    = Returns out w'
    ∧ usable Sample.client1 w'.
Proof.
  apply (Send_is_safe (E:=Sample2.offline) (UE:=Sample.UE) (US:=Sample.US)).
  split; by eexists.
Defined.

(** X8 on the samples. *)
Lemma getClient_makes_sample :
  ∃ (l : loc) (c : client) (w' : World),
    getClient (E:=Sample.env) "secret" sandboxAPIURL Sample.world1
    = Returns (c, None) w'
    ∧ store Sample.world1 !! l = None
    ∧ baseURL c = Some l
    ∧ store w' = <[l := with_Path Sample2.sandbox_base ("/" +:+ "api")]>
                   (store Sample.world1)
    ∧ wire w' = wire Sample.world1
    ∧ apiKey c = "secret"
    ∧ userAgent c = "mailtrap-go/0.1.2 (linux amd64) go/go1.22.0"
    ∧ httpClient c = Some {| http.Timeout := 30000000000 |}
    ∧ usable c w'.
Proof.
  apply (getClient_makes (E:=Sample.env) "secret" sandboxAPIURL Sample.world1
           (with_Path Sample2.sandbox_base "/")).
  vm_compute. reflexivity.
Defined.

(** X9 on the samples. *)
Lemma getClient_parse_error_sample :
  getClient (E:=Sample.env) "secret" ":foo" Sample.world1
  = Returns (zero_client,
             Some (libraryError "parse: missing protocol scheme")) Sample.world1
  ∧ NewRequest (E:=Sample.env) zero_client "POST" "/send" (Some Sample.email)
      Sample.world1 = Panics
  ∧ Do (E:=Sample.env) (UE:=Sample.UE) (UT:=Sample.US) zero_client
      (Some Sample.plain_request) nilDest Sample.world1 = Panics.
Proof.
  apply (getClient_parse_error (E:=Sample.env) (UE:=Sample.UE) (UT:=Sample.US)).
  vm_compute. reflexivity.
Defined.

(** X11 on the samples. *)
Lemma NewRequest_effect_sample :
  ∃ req err w',
    NewRequest (E:=Sample.env) Sample.client1 "BAD METHOD" "/x y"
      (Some Sample.email) Sample.world1 = Returns (req, err) w'
    ∧ (∃ l base, baseURL Sample.client1 = Some l
                 ∧ store Sample.world1 !! l = Some base
                 ∧ store w' !! l = Some (with_Path base (Path base +:+ "/x y"))
                 ∧ ∀ l', l' ≠ l → store w' !! l' = store Sample.world1 !! l')
    ∧ wire w' = wire Sample.world1
    ∧ (is_Some req ↔ err = None).
Proof.
  eexists _, _, _. split; [vm_compute; reflexivity|].
  apply (NewRequest_effect (E:=Sample.env) Sample.client1 "BAD METHOD" "/x y"
           (Some Sample.email) Sample.world1).
  vm_compute. reflexivity.
Defined.

(** X12 on the samples. *)
Lemma NewRequest_twice_sample :
  ∃ (out1 out2 : option http.Request * option error) (w1 w2 : World),
    NewRequest (E:=Sample.env) Sample.client1 "POST" "/send" (Some Sample.email)
      Sample.world1 = Returns out1 w1
    ∧ NewRequest (E:=Sample.env) Sample.client1 "GET" "/accounts" (@None SendEmailRequest)
        w1 = Returns out2 w2
    ∧ (core_state Sample.client1 w2).1.2
      = Some (with_Path Sample.base1 "/api/send/accounts").
Proof.
  eexists _, _, _, _. split; [vm_compute; reflexivity|].
  split; [vm_compute; reflexivity|].
  edestruct (NewRequest_twice (E:=Sample.env) Sample.client1 "POST" "/send"
               "GET" "/accounts" (Some Sample.email) None Sample.world1)
    as (base & Hbase & Hmoved & _).
  - vm_compute. reflexivity.
  - vm_compute. reflexivity.
  - injection Hbase as <-. exact Hmoved.
Defined.

(** X13 on the samples. *)
Lemma NewRequest_errors_sample :
  NewRequest (E:=Sample.env) (MB:=Sample2.Marshaler_Channel) Sample.client1
    "POST" "/send" (Some Sample2.channel) Sample.world1
  = Returns (None, Some (libraryError "json: unsupported type: chan int"))
            (moved 1%positive Sample.base1 "/send" Sample.world1)
  ∧ NewRequest (E:=Sample.env) Sample.client1 "BAD METHOD" "/send"
      (Some Sample.email) Sample.world1
    = Returns (None, Some (libraryError "net/http: invalid method"))
              (moved 1%positive Sample.base1 "/send" Sample.world1).
Proof.
  split.
  - destruct (NewRequest_errors (E:=Sample.env) (MB:=Sample2.Marshaler_Channel)
                Sample.client1 "POST" "/send" (Some Sample2.channel)
                Sample.world1 1%positive Sample.base1 eq_refl eq_refl)
      as (Hencoder & _ & _).
    by apply (Hencoder Sample2.channel).
  - destruct (NewRequest_errors (E:=Sample.env) Sample.client1 "BAD METHOD"
                "/send" (Some Sample.email) Sample.world1 1%positive
                Sample.base1 eq_refl eq_refl)
      as (_ & Hmethod & _).
    apply Hmethod.
    + right. right. by eexists _, _.
    + vm_compute. reflexivity.
Defined.

(** X14 on the samples. *)
Lemma NewRequest_empty_method_sample :
  ∃ req,
    NewRequest (E:=Sample.env) Sample.client1 EmptyString "/send"
      (Some Sample.email) Sample.world1
    = Returns (Some req, None) (moved 1%positive Sample.base1 "/send" Sample.world1)
    ∧ http.Method req = "GET"
    ∧ Path (http.ReqURL req) = "/api/send"
    ∧ Header_Get "Content-Type" (http.ReqHeader req) = "application/json"
    ∧ Header_Get "Authorization" (http.ReqHeader req) = "Bearer secret"
    ∧ http.ReqBody req
      = http.BufferBody
          (json.of_SendEmailRequest Sample.email +:+ String "010"%char EmptyString).
Proof.
  eexists. split.
  - apply (NewRequest_empty_method (E:=Sample.env) Sample.client1 "/send"
             Sample.email Sample.world1 1%positive Sample.base1
             (with_Path Sample.base1 "/api/send")).
    + reflexivity.
    + reflexivity.
    + vm_compute. reflexivity.
    + reflexivity.
  - split; [reflexivity|]. split; [reflexivity|].
    split; [vm_compute; reflexivity|]. split; [vm_compute; reflexivity|].
    reflexivity.
Defined.

(** X15 on the samples. *)
Lemma clients_have_their_own_base_sample :
  ∃ c1 c2 w1 w2,
    getClient (E:=Sample.env) "secret" sendingAPIURL Sample.world0
    = Returns (c1, None) w1
    ∧ getClient (E:=Sample.env) "other" sandboxAPIURL w1 = Returns (c2, None) w2
    ∧ baseURL c1 ≠ baseURL c2.
Proof.
  eexists _, _, _, _. split; [vm_compute; reflexivity|].
  split; [vm_compute; reflexivity|].
  eapply (clients_have_their_own_base (E:=Sample.env) (B:=SendEmailRequest)
            "secret" sendingAPIURL "other" sandboxAPIURL Sample.world0).
  - vm_compute. reflexivity.
  - vm_compute. reflexivity.
Defined.

(** X16 on the samples. *)
Lemma key_and_user_agent_reach_requests_sample :
  ∃ req w3,
    NewRequest (E:=Sample.env) Sample.client1 "POST" "/send" (Some Sample.email)
      Sample.world1 = Returns (Some req, None) w3
    ∧ Header_Get "Authorization" (http.ReqHeader req) = "Bearer secret"
    ∧ Header_Get "User-Agent" (http.ReqHeader req)
      = "mailtrap-go/0.1.2 (linux amd64) go/go1.22.0".
Proof.
  eexists _, _. split; [vm_compute; reflexivity|].
  apply (key_and_user_agent_reach_requests (E:=Sample.env) "secret" sendingAPIURL
           Sample.world0 Sample.world1 Sample.client1 "POST" "/send"
           (Some Sample.email) Sample.world1
           (moved 1%positive Sample.base1 "/send" Sample.world1)).
  - vm_compute. reflexivity.
  - vm_compute. reflexivity.
Defined.

(** X17 on the samples. *)
Lemma checkResponse_without_body_sample :
  checkResponse (UE:=Sample.UE) Sample2.answer_500
  = Some (providerError {| ErrorResponse_Response := Sample2.answer_500;
                           ErrorResponse_Message := EmptyString |}).
Proof.
  apply checkResponse_without_body.
  - unfold is_2xx. simpl. lia.
  - by right.
Defined.

(** X18 on the samples. *)
Lemma Do_writes_on_success_only_sample :
  ∃ v' res err w',
    Do (E:=Sample2.offline) (UE:=Sample.UE) (UT:=Sample.US) Sample.client1
       (Some Sample.plain_request) (typedDest zero_SendEmailResponse)
       Sample.world1 = Returns (v', res, err) w'
    ∧ res = None
    ∧ store w' = store Sample.world1
    ∧ v' = typedDest zero_SendEmailResponse
    ∧ is_Some err.
Proof.
  eexists _, _, _, _. split; [vm_compute; reflexivity|]. split; [reflexivity|].
  destruct (Do_writes_on_success_only (E:=Sample2.offline) (UE:=Sample.UE)
              (UT:=Sample.US) Sample.client1 (Some Sample.plain_request)
              (typedDest zero_SendEmailResponse) (typedDest zero_SendEmailResponse)
              Sample.world1 (sent Sample.plain_request Sample.world1)
              None (Some Sample2.refused_connection))
    as (Hstore & Hnone & _).
  - vm_compute. reflexivity.
  - split; [exact Hstore|]. exact (Hnone eq_refl).
Defined.

(** X20 on the samples. *)
Lemma fresh_clients_send_to_the_API_sample :
  ∃ sc w1 out w2,
    NewSandboxSendingClient (E:=Sample.env) "secret" 42 Sample.world0
    = Returns (Some sc, None) w1
    ∧ SandboxSendingClient_Send (E:=Sample.env) (UE:=Sample.UE) (US:=Sample.US)
        sc (Some Sample.email) w1 = Returns out w2
    ∧ wire w2
      = send_request (Sandbox_client sc)
          (with_Path Sample2.sandbox_base "/api/send/42") Sample.email
        :: wire Sample.world0
    ∧ apiKey (Sandbox_client sc) = "secret".
Proof.
  apply (fresh_clients_send_to_the_API (E:=Sample.env) (UE:=Sample.UE)
           (US:=Sample.US) "secret" 42 Sample.email Sample.world0
           (with_Path Sample2.sandbox_base "/")
           (with_Path Sample2.sandbox_base "/api/send/42")).
  - vm_compute. reflexivity.
  - vm_compute. reflexivity.
  - vm_compute. reflexivity.
Defined.


(** C8 on the sample clients: the first send of the production client
    goes to /api/send and is answered with 200; its second send of the
    same request goes to /api/send/send and is answered with 404.  The
    sends of the sandbox client for the inbox 42 go to /api/send/42 and
    then to /api/send/42/send/42. *)
Lemma repeated_Send_appends_its_path_sample :
  (∃ (out1 out2 : option SendEmailResponse * option Response * option error)
     (req1 req2 : http.Request) (w1 w2 : World),
     ProductionSendingClient_Send (E:=Sample.env) (UE:=Sample.UE) (US:=Sample.US)
       {| Production_client := Sample.client1 |} (Some Sample.email) Sample.world1
     = Returns out1 w1
     ∧ ProductionSendingClient_Send (E:=Sample.env) (UE:=Sample.UE) (US:=Sample.US)
         {| Production_client := Sample.client1 |} (Some Sample.email) w1
       = Returns out2 w2
     ∧ wire w2 = [req2; req1]
     ∧ http.Method req1 = "POST" ∧ Path (http.ReqURL req1) = "/api/send"
     ∧ http.Method req2 = "POST" ∧ Path (http.ReqURL req2) = "/api/send/send"
     ∧ out1 = (Some {| Success := true; MessageIDs := Some ["0c7fd939"] |},
               Some {| Response_http := Sample.answer_200 |}, None)
     ∧ out2.1 = (None, Some {| Response_http := Sample.answer_404 |})
     ∧ is_Some out2.2)
  ∧ (∃ (out1 out2 : option SendEmailResponse * option Response * option error)
       (req1 req2 : http.Request) (w1 w2 : World),
       SandboxSendingClient_Send (E:=Sample.env) (UE:=Sample.UE) (US:=Sample.US)
         Sample.sandbox1 (Some Sample.email) Sample.world1
       = Returns out1 w1
       ∧ SandboxSendingClient_Send (E:=Sample.env) (UE:=Sample.UE) (US:=Sample.US)
           Sample.sandbox1 (Some Sample.email) w1
         = Returns out2 w2
       ∧ wire w2 = [req2; req1]
       ∧ http.Method req1 = "POST" ∧ Path (http.ReqURL req1) = "/api/send/42"
       ∧ http.Method req2 = "POST"
       ∧ Path (http.ReqURL req2) = "/api/send/42/send/42").
Proof.
  split.
  - pose proof (repeated_Send_appends_its_path (E:=Sample.env) (UE:=Sample.UE)
                  (US:=Sample.US) Sample.client1 Direct Sample.email Sample.world1
                  1%positive Sample.base1
                  (with_Path Sample.base1 "/api/send")
                  (with_Path Sample.base1 "/api/send/send")
                  {| http.Timeout := 30000000000 |}) as Hsends.
    cbv zeta in Hsends.
    destruct Hsends as (_ & Hfirst & Hsecond & _ & Hwire);
      [vm_compute; reflexivity|reflexivity|reflexivity|reflexivity
      |vm_compute; reflexivity|vm_compute; reflexivity|].
    eexists _, _, _, _, _, _.
    split; [exact Hfirst|]. split; [exact Hsecond|]. split; [exact Hwire|].
    repeat (split; [vm_compute; reflexivity|]). vm_compute. by eexists.
  - pose proof (repeated_Send_appends_its_path (E:=Sample.env) (UE:=Sample.UE)
                  (US:=Sample.US) Sample.client1 (Sandbox 42) Sample.email
                  Sample.world1 1%positive Sample.base1
                  (with_Path Sample.base1 "/api/send/42")
                  (with_Path Sample.base1 "/api/send/42/send/42")
                  {| http.Timeout := 30000000000 |}) as Hsends.
    cbv zeta in Hsends.
    destruct Hsends as (_ & Hfirst & Hsecond & _ & Hwire);
      [vm_compute; reflexivity|reflexivity|reflexivity|reflexivity
      |vm_compute; reflexivity|vm_compute; reflexivity|].
    eexists _, _, _, _, _, _.
    split; [exact Hfirst|]. split; [exact Hsecond|]. split; [exact Hwire|].
    repeat (split; [vm_compute; reflexivity|]). vm_compute. reflexivity.
Defined.
